(** * The runtime application assembler of [baseapp/runtime/module.go]

    A shallow embedding of the Go package [runtime]: the shared heap the
    package's pointers live in, the [appBuilder] that scoped store-key
    providers append to, and the two-phase [AppCreator]
    ([RegisterModules], [Create], [Finish]).

    Go passes [*appBuilder], [*AppCreator], [*App] and the module map by
    reference, so every such object lives at an address of one heap and
    the functions are computations over that heap.  A computation either
    returns a value or panics; the heap it leaves behind is kept in both
    cases, since a panic does not undo earlier writes. *)

From stdpp Require Import gmap strings list fin_maps.

Open Scope string_scope.
Open Scope list_scope.

(** ** Values *)

Definition addr := nat.

(** A Go [error].  [fmt.Errorf] keeps its format string and operands
    (the rendering of the verbs is not modelled); an operand may itself be
    an error, which is how Go wraps one error in another.  [errorString]
    stands for the error values the collaborators hand back. *)
Inductive error : Type :=
| errorString (s : string)
| Errorf (format : string) (args : list operand)
with operand : Type :=
| OpString (s : string)
| OpError (e : error).

(** What a goroutine can panic with in this package. *)
Inductive panic_value : Type :=
| PanicError (e : error)          (* panic(err) *)
| NilDereference                  (* field access through a nil pointer *)
| NilMapAssignment                (* assignment to an entry of a nil map *)
| PanicMessage (s : string).      (* panic(fmt.Sprintf(...)) *)

Inductive outcome (A : Type) : Type :=
| Ret (a : A)
| Panic (p : panic_value).
Arguments Ret {A} a.
Arguments Panic {A} p.

(** ** Objects *)

(** [module.AppModule]: an interface value; [Name] is its accessor and
    [impl] tells two implementations with the same name apart. *)
Record AppModule : Type := { Name : string; impl : nat }.

(** [module.AppModuleWiringWrapper{AppModule: appModule}] *)
Record AppModuleWiringWrapper : Type := { wrapped : AppModule }.

Inductive StoreKeyKind : Type := KVStoreKey | TransientStoreKey | MemoryStoreKey.

(** [appBuilder]; a store key is the address of its key object. *)
Record appBuilder : Type := {
  storeKeys : list addr;
  interfaceRegistry : addr;
  cdc : addr;
  amino : addr
}.

(** [runtimev1.Module], the configuration record of the runtime module. *)
Record runtimev1_Module : Type := {
  AppName : string;
  BeginBlockers : list string
}.

(** [AppCreator]: every field is a pointer (or a map, which Go also
    passes by reference) and may be nil. *)
Record AppCreator : Type := {
  builder : option addr;
  modules : option addr;
  app : option addr;
  config : option runtimev1_Module
}.

(** [App] embeds [*baseapp.BaseApp]. *)
Record App : Type := { BaseApp : option addr }.

(** ** Collaborators of [Create]

    The logger, database, trace sink, pruning policy, database backend and
    snapshot store are opaque capabilities: the package only passes them
    on. *)
Inductive Logger : Type := MkLogger (id : nat).
Inductive DB : Type := MkDB (id : nat).
Inductive Writer : Type := MkWriter (id : nat).
Inductive PruningOptions : Type := MkPruningOptions (id : nat).
Inductive BackendType : Type := MkBackendType (id : nat).
Inductive SnapshotStore : Type := MkSnapshotStore (id : nat).

(** The option keys [Create] reads ([server.Flag...], [flags.FlagHome]). *)
Inductive Flag : Type :=
| FlagInterBlockCache | FlagUnsafeSkipUpgrades | FlagHome
| FlagStateSyncSnapshotInterval | FlagStateSyncSnapshotKeepRecent
| FlagMinGasPrices | FlagHaltHeight | FlagHaltTime | FlagMinRetainBlocks
| FlagTrace | FlagIndexEvents.

(** The untyped value ([interface{}]) an options source answers with. *)
Inductive Value : Type :=
| VNil
| VBool (b : bool)
| VString (s : string)
| VUint (n : N)
| VIntSlice (l : list Z)
| VStringSlice (l : list string).

(** [servertypes.AppOptions] *)
Record AppOptions : Type := { Get : Flag -> Value }.

(** [snapshottypes.NewSnapshotOptions(interval, keepRecent)] *)
Record SnapshotOptions : Type := { Interval : N; KeepRecent : N }.
Definition NewSnapshotOptions (interval keepRecent : N) : SnapshotOptions :=
  {| Interval := interval; KeepRecent := keepRecent |}.

(** [func(app *baseapp.BaseApp)]: a closure over the engine, named here by
    the call that makes it ([baseapp.SetPruning(opts)], ...), or by a
    number when the caller of [Create] made it.  Neither making nor
    running an option is part of this file: whether the call that makes
    one panics, and what the engine constructor does when it runs them,
    is left to the collaborators ([option_panic], [NewBaseApp]). *)
Inductive BaseAppOption : Type :=
| SetPruning (opts : PruningOptions)
| SetMinGasPrices (gasPrices : string)
| SetHaltHeight (blockHeight : N)
| SetHaltTime (haltTime : N)
| SetMinRetainBlocks (minRetainBlocks : N)
| SetInterBlockCache (cache : option addr)
| SetTrace (trace : bool)
| SetIndexEvents (ie : list string)
| SetSnapshot (snapshotStore : SnapshotStore) (opts : SnapshotOptions)
| CallerOption (id : nat).

(** The engine as this package sees it: what [Create] configured it with,
    and an opaque remainder [engine] that only the engine itself touches. *)
Record BaseAppState : Type := {
  name : string;
  logger : Logger;
  db : DB;
  options : list BaseAppOption;
  cmsTracer : option Writer;
  version : string;
  appInterfaceRegistry : option addr;
  engine : nat
}.

(** ** The heap *)

Inductive object : Type :=
| InterfaceRegistryObj
| ProtoCodecObj (registry : addr)
| LegacyAminoObj
| StoreKeyObj (kind : StoreKeyKind) (keyName : string)
| CacheManagerObj
| BuilderObj (b : appBuilder)
| ModulesObj (m : gmap string AppModuleWiringWrapper)
| BaseAppObj (b : BaseAppState)
| AppObj (a : App)
| CreatorObj (c : AppCreator).

Abbreviation heap := (gmap addr object).

(** [outputs] of [provideBuilder] *)
Record outputs : Type := {
  InterfaceRegistry : addr;
  Codec : addr;
  LegacyAmino : addr;
  Builder : option addr
}.

(** ** Computations over the heap *)

Definition M (A : Type) : Type := heap -> outcome A * heap.

Definition ret {A} (a : A) : M A := fun h => (Ret a, h).

Definition bind {A B} (m : M A) (k : A -> M B) : M B :=
  fun h =>
    match m h with
    | (Ret a, h') => k a h'
    | (Panic p, h') => (Panic p, h')
    end.

Definition panic {A} (p : panic_value) : M A := fun h => (Panic p, h).

Notation "'let*' x := m 'in' k" := (bind m (fun x => k))
  (at level 10, x name, m at level 100, k at level 200).
Notation "'run' m 'in' k" := (bind m (fun _ => k))
  (at level 10, m at level 100, k at level 200).

(** [&T{...}] and the [New...] constructors: a fresh address. *)
Definition alloc (o : object) : M addr :=
  fun h => let a := fresh (dom h) in (Ret a, <[a := o]> h).

(** Reading through a pointer.  A nil pointer panics; Go's type system
    rules out a pointer to an object of another type, which is treated
    the same way here. *)
Definition deref {A} (sel : object -> option A) (p : option addr) : M A :=
  fun h =>
    match p with
    | Some a =>
        match h !! a with
        | Some o => match sel o with
                    | Some x => (Ret x, h)
                    | None => (Panic NilDereference, h)
                    end
        | None => (Panic NilDereference, h)
        end
    | None => (Panic NilDereference, h)
    end.

Definition store (a : addr) (o : object) : M unit :=
  fun h => (Ret tt, <[a := o]> h).

Definition as_creator (o : object) : option AppCreator :=
  match o with CreatorObj c => Some c | _ => None end.
Definition as_builder (o : object) : option appBuilder :=
  match o with BuilderObj b => Some b | _ => None end.
Definition as_app (o : object) : option App :=
  match o with AppObj a => Some a | _ => None end.
Definition as_baseapp (o : object) : option BaseAppState :=
  match o with BaseAppObj b => Some b | _ => None end.
Definition as_modules (o : object) : option (gmap string AppModuleWiringWrapper) :=
  match o with ModulesObj m => Some m | _ => None end.

(** [a.config] followed by a field access: panics on a nil [config]. *)
Definition deref_config (c : option runtimev1_Module) : M runtimev1_Module :=
  match c with
  | Some cfg => ret cfg
  | None => panic NilDereference
  end.

(** [m[k]] on a map: reading a nil map finds nothing. *)
Definition map_lookup (m : option addr) (k : string)
  : M (option AppModuleWiringWrapper) :=
  match m with
  | None => ret None
  | Some _ => let* entries := deref as_modules m in ret (entries !! k)
  end.

(** [m[k] = v]: assigning into a nil map panics. *)
Definition map_assign (m : option addr) (k : string) (v : AppModuleWiringWrapper)
  : M unit :=
  match m with
  | None => panic NilMapAssignment
  | Some p =>
      let* entries := deref as_modules m in
      store p (ModulesObj (<[k := v]> entries))
  end.

(** ** What the package calls but does not define

    The [cast] coercions, the server helpers, the database and
    snapshot-store constructors and the build version are functions of
    their arguments.  The [baseapp] package is taken as it comes:
    - [option_panic o] is what the call that makes the option [o] panics
      with, if it does ([baseapp.SetMinGasPrices], for one, parses its
      argument when it is called);
    - [NewBaseApp] is the engine constructor, which runs every option it
      is given, the caller's closures among them: a computation over the
      heap, which may panic;
    - [SetCommitMultiStoreTracer], [SetVersion], [SetInterfaceRegistry]
      and [LoadLatestVersion] are the engine's methods, which act on the
      engine's state and may panic. *)
Record Collaborators : Type := {
  ToBool : Value -> bool;
  ToIntSlice : Value -> list Z;
  ToString : Value -> string;
  ToUint64 : Value -> N;
  ToUint32 : Value -> N;
  ToStringSlice : Value -> list string;
  GetPruningOptionsFromFlags : AppOptions -> PruningOptions * option error;
  GetAppDBBackend : AppOptions -> BackendType;
  filepath_Join : list string -> string;
  NewDB : string -> BackendType -> string -> DB * option error;
  NewStore : DB -> string -> SnapshotStore * option error;
  version_Version : string;
  option_panic : BaseAppOption -> option panic_value;
  NewBaseApp : string -> Logger -> DB -> list BaseAppOption -> M addr;
  SetCommitMultiStoreTracer : BaseAppState -> option Writer -> outcome BaseAppState;
  SetVersion : BaseAppState -> string -> outcome BaseAppState;
  SetInterfaceRegistry : BaseAppState -> addr -> outcome BaseAppState;
  LoadLatestVersion : BaseAppState -> outcome (option error) * BaseAppState
}.

(** ** The builder and the scoped store-key providers *)

(** [func (a *appBuilder) registerStoreKey(key storetypes.StoreKey)] *)
Definition registerStoreKey (a : option addr) (key : addr) : M unit :=
  let* b := deref as_builder a in
  match a with
  | Some p =>
      store p (BuilderObj {| storeKeys := (storeKeys b ++ [key])%list;
                             interfaceRegistry := interfaceRegistry b;
                             cdc := cdc b;
                             amino := amino b |})
  | None => panic NilDereference
  end.

(** Modelled from the spec: [storetypes.NewKVStoreKey],
    [storetypes.NewTransientStoreKey] and [storetypes.NewMemoryStoreKey]
    are not in this file.  Each synthesizes a new key object whose
    internal name is the identifier it is given, and does not fail. *)
Definition NewStoreKey (kind : StoreKeyKind) (keyName : string) : M addr :=
  alloc (StoreKeyObj kind keyName).

(** [container.ModuleKey]: the scoped identifier; [key.Name()] reads it. *)
Record ModuleKey : Type := { ModuleKey_Name : string }.

(** [func provideKVStoreKey(key container.ModuleKey, builder *appBuilder) *storetypes.KVStoreKey] *)
Definition provideKVStoreKey (key : ModuleKey) (builder : option addr) : M addr :=
  let* storeKey := NewStoreKey KVStoreKey (ModuleKey_Name key) in
  run registerStoreKey builder storeKey in
  ret storeKey.

(** [func provideTransientStoreKey(key container.ModuleKey, builder *appBuilder) *storetypes.TransientStoreKey] *)
Definition provideTransientStoreKey (key : ModuleKey) (builder : option addr) : M addr :=
  let* storeKey := NewStoreKey TransientStoreKey (ModuleKey_Name key) in
  run registerStoreKey builder storeKey in
  ret storeKey.

(** [func provideMemoryStoreKey(key container.ModuleKey, builder *appBuilder) *storetypes.MemoryStoreKey] *)
Definition provideMemoryStoreKey (key : ModuleKey) (builder : option addr) : M addr :=
  let* storeKey := NewStoreKey MemoryStoreKey (ModuleKey_Name key) in
  run registerStoreKey builder storeKey in
  ret storeKey.

(** [func provideBuilder() (outputs, error)]

    [codectypes.NewInterfaceRegistry], [codec.NewProtoCodec] and
    [codec.NewLegacyAmino] each build one new object; the codec keeps the
    registry it was built over. *)
Definition provideBuilder : M (outputs * option error) :=
  let* interfaceRegistry := alloc InterfaceRegistryObj in
  let* cdc := alloc (ProtoCodecObj interfaceRegistry) in
  let* amino := alloc LegacyAminoObj in
  let* builder := alloc (BuilderObj {| storeKeys := [];
                                       interfaceRegistry := interfaceRegistry;
                                       cdc := cdc;
                                       amino := amino |}) in
  ret ({| InterfaceRegistry := interfaceRegistry;
          Codec := cdc;
          LegacyAmino := amino;
          Builder := Some builder |}, None).

(** ** The application creator *)

(** [func provideApp(config *runtimev1.Module, builder *appBuilder,
    modules map[string]module.AppModuleWiringWrapper) *AppCreator] *)
Definition provideApp (config : option runtimev1_Module) (builder : option addr)
    (modules : option addr) : M (option addr) :=
  let* a := alloc (CreatorObj {| builder := builder;
                                 modules := modules;
                                 app := None;
                                 config := config |}) in
  ret (Some a).

(** [func (a *AppCreator) RegisterModules(modules ...module.AppModule) error] *)
Fixpoint RegisterModules (a : option addr) (appModules : list AppModule)
  : M (option error) :=
  match appModules with
  | [] => ret None
  | appModule :: rest =>
      let* c := deref as_creator a in
      let* found := map_lookup (modules c) (Name appModule) in
      match found with
      | Some _ =>
          ret (Some (Errorf "module named %q already exists"
                            [OpString (Name appModule)]))
      | None =>
          let* c := deref as_creator a in
          run map_assign (modules c) (Name appModule)
                         {| wrapped := appModule |} in
          RegisterModules a rest
      end
  end.

(** The loop of [Finish] over [a.config.BeginBlockers]. *)
Fixpoint Finish_blockers (a : option addr) (blockers : list string)
  : M (option error) :=
  match blockers with
  | [] => ret None
  | blocker :: rest =>
      let* c := deref as_creator a in
      let* found := map_lookup (modules c) blocker in
      match found with
      | None =>
          ret (Some (Errorf "can't find module named %q registered as a begin blocker"
                            [OpString blocker]))
      | Some _ => Finish_blockers a rest
      end
  end.

Section WithCollaborators.

Context (E : Collaborators).

(** [a.app.LoadLatestVersion()]: through [a.app] and the embedded
    [*baseapp.BaseApp] into the engine, which may rewrite its own state. *)
Definition App_LoadLatestVersion (ap : option addr) : M (option error) :=
  let* application := deref as_app ap in
  let* b := deref as_baseapp (BaseApp application) in
  match BaseApp application with
  | Some p =>
      fun h =>
        match LoadLatestVersion E b with
        | (res, b') => (res, <[p := BaseAppObj b']> h)
        end
  | None => panic NilDereference
  end.

(** [func (a *AppCreator) Finish(loadLatest bool) error] *)
Definition Finish (a : option addr) (loadLatest : bool) : M (option error) :=
  let* c := deref as_creator a in
  match app c with
  | None => ret (Some (Errorf "app not created yet, can't finish" []))
  | Some _ =>
      let* cfg := deref_config (config c) in
      let* failed := Finish_blockers a (BeginBlockers cfg) in
      match failed with
      | Some err => ret (Some err)
      | None =>
          if loadLatest then
            let* c := deref as_creator a in
            let* err := App_LoadLatestVersion (app c) in
            match err with
            | Some err => ret (Some err)
            | None => ret None
            end
          else ret None
      end
  end.

(** One of the [baseapp.Set...] calls of [Create]: it panics, or it
    returns the option. *)
Definition baseapp_option (o : BaseAppOption) : M BaseAppOption :=
  match option_panic E o with
  | Some p => panic p
  | None => ret o
  end.

(** A method call on the engine at [bApp]: the engine's state is
    replaced by what the method leaves, unless the method panics. *)
Definition engine_call (bApp : addr)
    (method : BaseAppState -> outcome BaseAppState) : M unit :=
  let* b := deref as_baseapp (Some bApp) in
  match method b with
  | Ret b' => store bApp (BaseAppObj b')
  | Panic p => panic p
  end.

(** The inter-block cache of [Create]: a new cache manager when the flag
    coerces to true, nil otherwise. *)
Definition interBlockCache (appOpts : AppOptions) : M (option addr) :=
  if ToBool E (Get appOpts FlagInterBlockCache)
  then let* manager := alloc CacheManagerObj in ret (Some manager)
  else ret None.

(** [a.app = p] *)
Definition assign_app (a : option addr) (p : option addr) : M unit :=
  let* c := deref as_creator a in
  match a with
  | Some self =>
      store self (CreatorObj {| builder := builder c; modules := modules c;
                                app := p; config := config c |})
  | None => panic NilDereference
  end.

(** [func (a *AppCreator) Create(logger log.Logger, db dbm.DB,
    traceStore io.Writer, appOpts servertypes.AppOptions,
    baseAppOptions ...func(app *baseapp.BaseApp)) *App] *)
Definition Create (a : option addr) (logger : Logger) (db : DB)
    (traceStore : option Writer) (appOpts : AppOptions)
    (baseAppOptions : list BaseAppOption) : M (option addr) :=
  let* cache := interBlockCache appOpts in
  let skipUpgradeHeights : gmap Z bool :=
    foldl (fun m h => <[h := true]> m) ∅
          (ToIntSlice E (Get appOpts FlagUnsafeSkipUpgrades)) in
  match GetPruningOptionsFromFlags E appOpts with
  | (_, Some err) => panic (PanicError err)
  | (pruningOpts, None) =>
  let snapshotDir :=
    filepath_Join E [ToString E (Get appOpts FlagHome); "data"; "snapshots"] in
  match NewDB E "metadata" (GetAppDBBackend E appOpts) snapshotDir with
  | (_, Some err) => panic (PanicError err)
  | (snapshotDB, None) =>
  match NewStore E snapshotDB snapshotDir with
  | (_, Some err) => panic (PanicError err)
  | (snapshotStore, None) =>
  let snapshotOptions :=
    NewSnapshotOptions
      (ToUint64 E (Get appOpts FlagStateSyncSnapshotInterval))
      (ToUint32 E (Get appOpts FlagStateSyncSnapshotKeepRecent)) in
  let* setPruning := baseapp_option (SetPruning pruningOpts) in
  let* setMinGasPrices :=
    baseapp_option (SetMinGasPrices (ToString E (Get appOpts FlagMinGasPrices))) in
  let* setHaltHeight :=
    baseapp_option (SetHaltHeight (ToUint64 E (Get appOpts FlagHaltHeight))) in
  let* setHaltTime :=
    baseapp_option (SetHaltTime (ToUint64 E (Get appOpts FlagHaltTime))) in
  let* setMinRetainBlocks :=
    baseapp_option (SetMinRetainBlocks (ToUint64 E (Get appOpts FlagMinRetainBlocks))) in
  let* setInterBlockCache := baseapp_option (SetInterBlockCache cache) in
  let* setTrace := baseapp_option (SetTrace (ToBool E (Get appOpts FlagTrace))) in
  let* setIndexEvents :=
    baseapp_option (SetIndexEvents (ToStringSlice E (Get appOpts FlagIndexEvents))) in
  let* setSnapshot := baseapp_option (SetSnapshot snapshotStore snapshotOptions) in
  let baseAppOptions : list BaseAppOption :=
    (baseAppOptions ++
    [ setPruning; setMinGasPrices; setHaltHeight; setHaltTime; setMinRetainBlocks;
      setInterBlockCache; setTrace; setIndexEvents; setSnapshot ])%list in
  let* c := deref as_creator a in
  let* cfg := deref_config (config c) in
  let* bApp := NewBaseApp E (AppName cfg) logger db baseAppOptions in
  run engine_call bApp (fun b => SetCommitMultiStoreTracer E b traceStore) in
  run engine_call bApp (fun b => SetVersion E b (version_Version E)) in
  let* c := deref as_creator a in
  let* b := deref as_builder (builder c) in
  run engine_call bApp (fun st => SetInterfaceRegistry E st (interfaceRegistry b)) in
  let* application := alloc (AppObj {| BaseApp := Some bApp |}) in
  run assign_app a (Some application) in
  let* c := deref as_creator a in
  ret (app c)
  end end end.

End WithCollaborators.

(** ** A concrete environment to run the package in *)

(** Modelled from the spec: an engine to stand for [baseapp] when the
    package is run.  Its constructor makes one new engine from the name,
    logger, database and options it is given, and writes to nothing else;
    its three setters record the trace sink, the version and the bound
    interface registry.  Options are kept, not run. *)
Definition plainNewBaseApp (appName : string) (logger : Logger) (db : DB)
    (baseAppOptions : list BaseAppOption) : M addr :=
  alloc (BaseAppObj {| name := appName; logger := logger; db := db;
                       options := baseAppOptions; cmsTracer := None;
                       version := ""; appInterfaceRegistry := None;
                       engine := 0 |}).

Definition plainSetCommitMultiStoreTracer (b : BaseAppState) (w : option Writer)
  : outcome BaseAppState :=
  Ret {| name := name b; logger := logger b; db := db b; options := options b;
         cmsTracer := w; version := version b;
         appInterfaceRegistry := appInterfaceRegistry b; engine := engine b |}.

Definition plainSetVersion (b : BaseAppState) (v : string) : outcome BaseAppState :=
  Ret {| name := name b; logger := logger b; db := db b; options := options b;
         cmsTracer := cmsTracer b; version := v;
         appInterfaceRegistry := appInterfaceRegistry b; engine := engine b |}.

Definition plainSetInterfaceRegistry (b : BaseAppState) (registry : addr)
  : outcome BaseAppState :=
  Ret {| name := name b; logger := logger b; db := db b; options := options b;
         cmsTracer := cmsTracer b; version := version b;
         appInterfaceRegistry := Some registry; engine := engine b |}.

(** Coercions in the manner of [cast]: a value of the wrong shape, or an
    absent one, coerces to the zero value.  The outcomes of the fallible
    collaborators, and the options whose making panics, are left to
    choose. *)
Definition environment (panics : BaseAppOption -> option panic_value)
    (pruning : PruningOptions * option error)
    (newDB : DB * option error) (newStore : SnapshotStore * option error)
    (load : BaseAppState -> outcome (option error) * BaseAppState)
  : Collaborators := {|
  ToBool := fun v => match v with VBool b => b | _ => false end;
  ToIntSlice := fun v => match v with VIntSlice l => l | _ => [] end;
  ToString := fun v => match v with VString s => s | _ => "" end;
  ToUint64 := fun v => match v with VUint n => n | _ => 0%N end;
  ToUint32 := fun v => match v with VUint n => n | _ => 0%N end;
  ToStringSlice := fun v => match v with VStringSlice l => l | _ => [] end;
  GetPruningOptionsFromFlags := fun _ => pruning;
  GetAppDBBackend := fun _ => MkBackendType 0;
  filepath_Join := fun parts => String.concat "/" parts;
  NewDB := fun _ _ _ => newDB;
  NewStore := fun _ _ => newStore;
  version_Version := "v0";
  option_panic := panics;
  NewBaseApp := plainNewBaseApp;
  SetCommitMultiStoreTracer := plainSetCommitMultiStoreTracer;
  SetVersion := plainSetVersion;
  SetInterfaceRegistry := plainSetInterfaceRegistry;
  LoadLatestVersion := load
|}.

(** No option panics when it is made. *)
Definition collaborators (pruning : PruningOptions * option error)
    (newDB : DB * option error) (newStore : SnapshotStore * option error)
    (load : BaseAppState -> outcome (option error) * BaseAppState)
  : Collaborators :=
  environment (fun _ => None) pruning newDB newStore load.

(** Everything works. *)
Definition sampleCollaborators : Collaborators :=
  collaborators (MkPruningOptions 0, None) (MkDB 1, None) (MkSnapshotStore 0, None)
                (fun b => (Ret None, b)).

(** The snapshot directory cannot be opened. *)
Definition StoreOpenError : error := errorString "snapshot store: cannot open".
Definition brokenSnapshots : Collaborators :=
  collaborators (MkPruningOptions 0, None) (MkDB 1, None)
                (MkSnapshotStore 0, Some StoreOpenError)
                (fun b => (Ret None, b)).

(** The engine fails to load its state until it has tried once. *)
Definition LoadError : error := errorString "failed to load latest version".
Definition flakyLoad (b : BaseAppState) : outcome (option error) * BaseAppState :=
  (Ret (match engine b with 0 => Some LoadError | _ => None end),
   {| name := name b; logger := logger b; db := db b; options := options b;
      cmsTracer := cmsTracer b; version := version b;
      appInterfaceRegistry := appInterfaceRegistry b; engine := S (engine b) |}).
Definition flakyEngine : Collaborators :=
  collaborators (MkPruningOptions 0, None) (MkDB 1, None) (MkSnapshotStore 0, None)
                flakyLoad.

Definition noOptions : AppOptions := {| Get := fun _ => VNil |}.

Definition sampleConfig (blockers : list string) : runtimev1_Module :=
  {| AppName := "app"; BeginBlockers := blockers |}.

(** The wiring the container performs: one builder, one module map, one
    creator. *)
Definition assemble (cfg : runtimev1_Module) : M (outputs * option addr) :=
  let* out := provideBuilder in
  let* registry := alloc (ModulesObj ∅) in
  let* a := provideApp (Some cfg) (Builder (fst out)) (Some registry) in
  ret (fst out, a).

Definition bank : AppModule := {| Name := "bank"; impl := 1 |}.
Definition auth : AppModule := {| Name := "auth"; impl := 2 |}.
Definition bank' : AppModule := {| Name := "bank"; impl := 3 |}.

(** The addresses [assemble] hands out on an empty heap. *)
Definition sampleBuilder : addr := 3.
Definition sampleRegistry : addr := 4.
Definition sampleCreator : addr := 5.

(** The creator object of the sample assembly, with a given [app] handle. *)
Definition sampleCreatorObj (blockers : list string) (ap : option addr) : AppCreator :=
  {| builder := Some sampleBuilder; modules := Some sampleRegistry;
     app := ap; config := Some (sampleConfig blockers) |}.

(** The heap once the container has wired everything up, once [bank] and
    [auth] are registered, and once the engine has been constructed. *)
Definition wired (blockers : list string) : heap :=
  snd (assemble (sampleConfig blockers) ∅).
Definition registered (blockers : list string) : heap :=
  snd (RegisterModules (Some sampleCreator) [bank; auth] (wired blockers)).
Definition created (E : Collaborators) (blockers : list string) : heap :=
  snd (Create E (Some sampleCreator) (MkLogger 0) (MkDB 0) None noOptions []
              (registered blockers)).

(** ** Reading the heap in statements *)

Definition creator_at (h : heap) (a : addr) : option AppCreator :=
  h !! a ≫= as_creator.

(** The entries seen through a map value: a nil map reads as empty. *)
Definition module_entries (h : heap) (m : option addr)
  : option (gmap string AppModuleWiringWrapper) :=
  match m with
  | None => Some ∅
  | Some p => h !! p ≫= as_modules
  end.

(** The Module Registry of the creator at [a]. *)
Definition registry (h : heap) (a : addr)
  : option (gmap string AppModuleWiringWrapper) :=
  c ← creator_at h a; module_entries h (modules c).

(** The creator at [a] holds the (non-nil) module map at [mp], whose
    entries are [m]. *)
Definition holds_registry (h : heap) (a mp : addr)
    (m : gmap string AppModuleWiringWrapper) : Prop :=
  ∃ c, h !! a = Some (CreatorObj c) ∧ modules c = Some mp ∧
       h !! mp = Some (ModulesObj m).

(** The engine a creator's [app] handle leads to. *)
Definition engine_of (h : heap) (c : AppCreator) : option (addr * BaseAppState) :=
  ap ← app c; application ← h !! ap ≫= as_app;
  p ← BaseApp application; b ← h !! p ≫= as_baseapp; Some (p, b).

(** The errors of the package, by the name the specification gives them. *)
Definition DuplicateModuleError (n : string) : error :=
  Errorf "module named %q already exists" [OpString n].
Definition UnknownModuleError (n : string) : error :=
  Errorf "can't find module named %q registered as a begin blocker" [OpString n].
Definition NotCreatedError : error :=
  Errorf "app not created yet, can't finish" [].

(** Inserting every module of a list, in order. *)
Definition register_all (m : gmap string AppModuleWiringWrapper)
    (ms : list AppModule) : gmap string AppModuleWiringWrapper :=
  foldl (fun acc x => <[Name x := {| wrapped := x |}]> acc) m ms.

(** The first name of a list that a map has no entry for. *)
Fixpoint first_missing (m : gmap string AppModuleWiringWrapper)
    (names : list string) : option string :=
  match names with
  | [] => None
  | k :: rest =>
      match m !! k with
      | None => Some k
      | Some _ => first_missing m rest
      end
  end.

(** A run of [RegisterModules] calls on one creator, collecting what each
    returned. *)
Fixpoint RegisterModules_calls (a : option addr) (calls : list (list AppModule))
  : M (list (option error)) :=
  match calls with
  | [] => ret []
  | ms :: rest =>
      let* e := RegisterModules a ms in
      let* es := RegisterModules_calls a rest in
      ret (e :: es)
  end.

(** A request to one of the three scoped store-key providers. *)
Inductive request : Type :=
| KVRequest (key : ModuleKey)
| TransientRequest (key : ModuleKey)
| MemoryRequest (key : ModuleKey).

Definition request_kind (r : request) : StoreKeyKind :=
  match r with
  | KVRequest _ => KVStoreKey
  | TransientRequest _ => TransientStoreKey
  | MemoryRequest _ => MemoryStoreKey
  end.

Definition request_key (r : request) : ModuleKey :=
  match r with
  | KVRequest key | TransientRequest key | MemoryRequest key => key
  end.

Definition serve (b : option addr) (r : request) : M addr :=
  match r with
  | KVRequest key => provideKVStoreKey key b
  | TransientRequest key => provideTransientStoreKey key b
  | MemoryRequest key => provideMemoryStoreKey key b
  end.

(** A run of provider requests against one builder, collecting the keys
    handed out. *)
Fixpoint serve_all (b : option addr) (rs : list request) : M (list addr) :=
  match rs with
  | [] => ret []
  | r :: rest =>
      let* k := serve b r in
      let* ks := serve_all b rest in
      ret (k :: ks)
  end.

(** The nine options [Create] derives from the options source, in the
    order it appends them to the caller's. *)
Definition derived_options (E : Collaborators) (appOpts : AppOptions)
    (pruningOpts : PruningOptions) (snapshotStore : SnapshotStore)
    (cache : option addr) : list BaseAppOption :=
  [ SetPruning pruningOpts;
    SetMinGasPrices (ToString E (Get appOpts FlagMinGasPrices));
    SetHaltHeight (ToUint64 E (Get appOpts FlagHaltHeight));
    SetHaltTime (ToUint64 E (Get appOpts FlagHaltTime));
    SetMinRetainBlocks (ToUint64 E (Get appOpts FlagMinRetainBlocks));
    SetInterBlockCache cache;
    SetTrace (ToBool E (Get appOpts FlagTrace));
    SetIndexEvents (ToStringSlice E (Get appOpts FlagIndexEvents));
    SetSnapshot snapshotStore
      (NewSnapshotOptions
         (ToUint64 E (Get appOpts FlagStateSyncSnapshotInterval))
         (ToUint32 E (Get appOpts FlagStateSyncSnapshotKeepRecent))) ].

(** One run of the engine constructor that went well: on the heap [h0]
    it returned the engine [bApp], a new object in state [st], and wrote
    to no object that was there. *)
Definition builds_engine (E : Collaborators) (appName : string) (logger : Logger)
    (db : DB) (opts : list BaseAppOption) (h0 : heap) (bApp : addr)
    (st : BaseAppState) (h1 : heap) : Prop :=
  NewBaseApp E appName logger db opts h0 = (Ret bApp, h1) ∧
  h0 !! bApp = None ∧
  h1 !! bApp = Some (BaseAppObj st) ∧
  ∀ q o, h0 !! q = Some o -> h1 !! q = Some o.

(** The engine constructor keeps to its own: whatever it is given and
    however it ends, it writes to no object that was there, and an engine
    it returns is a new object. *)
Definition constructor_keeps_to_itself (E : Collaborators) : Prop :=
  ∀ appName logger db opts h0 r h1,
    NewBaseApp E appName logger db opts h0 = (r, h1) ->
    (∀ q o, h0 !! q = Some o -> h1 !! q = Some o) ∧
    (∀ bApp, r = Ret bApp -> h0 !! bApp = None).

(** The engine can be built and set up for this configuration: on any
    heap and with any inter-block cache, the constructor goes well, and
    the three setters return on the engine it made. *)
Definition engine_available (E : Collaborators) (cfg : runtimev1_Module)
    (logger : Logger) (db : DB) (traceStore : option Writer) (appOpts : AppOptions)
    (baseAppOptions : list BaseAppOption) (pruningOpts : PruningOptions)
    (snapshotStore : SnapshotStore) : Prop :=
  ∀ cache h0, ∃ bApp st h1 st1 st2,
    builds_engine E (AppName cfg) logger db
      (baseAppOptions ++ derived_options E appOpts pruningOpts snapshotStore cache)
      h0 bApp st h1 ∧
    SetCommitMultiStoreTracer E st traceStore = Ret st1 ∧
    SetVersion E st1 (version_Version E) = Ret st2 ∧
    ∀ registry, ∃ st3, SetInterfaceRegistry E st2 registry = Ret st3.

(** Gas prices are checked when the option is made, in the manner of
    [baseapp.SetMinGasPrices]: here, a price must be empty or start with
    a digit. *)
Definition checksGasPrices (o : BaseAppOption) : option panic_value :=
  match o with
  | SetMinGasPrices (String c _) =>
      if Nat.leb 48 (Ascii.nat_of_ascii c) && Nat.leb (Ascii.nat_of_ascii c) 57 then None
      else Some (PanicMessage "invalid minimum gas prices")
  | _ => None
  end.
Definition strictCollaborators : Collaborators :=
  environment checksGasPrices (MkPruningOptions 0, None) (MkDB 1, None)
              (MkSnapshotStore 0, None) (fun b => (Ret None, b)).

(** A creator made with neither builder nor module map, on an empty
    heap: it sits at address 0. *)
Definition bareCreator : heap :=
  snd (provideApp (Some (sampleConfig [])) None None ∅).

(** The sample assembly with a second creator made over the same module
    map: it sits at address 6. *)
Definition twoCreators : heap :=
  snd (provideApp (Some (sampleConfig [])) None (Some sampleRegistry) (wired [])).

Definition staking : AppModule := {| Name := "staking"; impl := 4 |}.

(** A heap that holds an empty module map and nothing else. *)
Definition emptyRegistry : heap := {[ 0 := ModulesObj ∅ ]}.

(** * Properties *)

(** ** Stepping through computations *)

Lemma bind_Ret {A B} (m : M A) (k : A -> M B) h a h' :
  m h = (Ret a, h') -> bind m k h = k a h'.
Proof. intros Hm. unfold bind. now rewrite Hm. Qed.

Lemma bind_Panic {A B} (m : M A) (k : A -> M B) h p h' :
  m h = (Panic p, h') -> bind m k h = (Panic p, h').
Proof. intros Hm. unfold bind. now rewrite Hm. Qed.

Lemma deref_Some {A} (sel : object -> option A) h a o x :
  h !! a = Some o -> sel o = Some x -> deref sel (Some a) h = (Ret x, h).
Proof. intros Ha Hs. unfold deref. now rewrite Ha, Hs. Qed.

Lemma deref_creator h a c :
  h !! a = Some (CreatorObj c) -> deref as_creator (Some a) h = (Ret c, h).
Proof. intros Ha. now apply deref_Some with (o := CreatorObj c). Qed.

Lemma deref_ret {A} (sel : object -> option A) q h x :
  h !! q ≫= sel = Some x -> deref sel (Some q) h = (Ret x, h).
Proof.
  unfold deref. destruct (h !! q) as [o|]; simpl; [|discriminate].
  now intros ->.
Qed.

Lemma deref_panic {A} (sel : object -> option A) q h :
  h !! q ≫= sel = None -> deref sel (Some q) h = (Panic NilDereference, h).
Proof.
  unfold deref. destruct (h !! q) as [o|]; simpl; [|done].
  now intros ->.
Qed.

Lemma map_lookup_entries h mp m k :
  module_entries h mp = Some m -> map_lookup mp k h = (Ret (m !! k), h).
Proof.
  destruct mp as [p|]; simpl.
  - intros Hm. unfold bind, deref.
    destruct (h !! p) as [o|]; simpl in Hm; [|discriminate].
    rewrite Hm. reflexivity.
  - intros [= <-]. reflexivity.
Qed.

Lemma map_assign_entries h p m k v :
  h !! p = Some (ModulesObj m) ->
  map_assign (Some p) k v h = (Ret tt, <[p := ModulesObj (<[k := v]> m)]> h).
Proof.
  intros Hp. simpl. unfold bind, deref. now rewrite Hp.
Qed.

(** A creator and its module map are different objects. *)
Lemma creator_ne_modules (h : heap) a c p m :
  h !! a = Some (CreatorObj c) -> h !! p = Some (ModulesObj m) -> p ≠ a.
Proof. intros Ha Hp ->. congruence. Qed.

(** ** [RegisterModules] *)

Lemma holds_registry_update h a mp m m' :
  holds_registry h a mp m ->
  holds_registry (<[mp := ModulesObj m']> h) a mp m'.
Proof.
  intros (c & Ha & Hm & Hp). exists c.
  pose proof (creator_ne_modules _ _ _ _ _ Ha Hp) as Hne.
  rewrite lookup_insert_ne by done. rewrite lookup_insert_eq. done.
Qed.

Lemma holds_registry_registry h a mp m :
  holds_registry h a mp m -> registry h a = Some m.
Proof.
  intros (c & Ha & Hm & Hp). unfold registry, creator_at.
  rewrite Ha. simpl. rewrite Hm. simpl. now rewrite Hp.
Qed.

Lemma RegisterModules_nil a h : RegisterModules a [] h = (Ret None, h).
Proof. reflexivity. Qed.

(** One turn of the loop. *)
Lemma RegisterModules_cons h a mp m x rest :
  holds_registry h a mp m ->
  RegisterModules (Some a) (x :: rest) h =
  match m !! Name x with
  | Some _ => (Ret (Some (DuplicateModuleError (Name x))), h)
  | None =>
      RegisterModules (Some a) rest
        (<[mp := ModulesObj (<[Name x := {| wrapped := x |}]> m)]> h)
  end.
Proof.
  intros (c & Ha & Hm & Hp). simpl.
  rewrite (bind_Ret _ _ _ _ _ (deref_creator _ _ _ Ha)).
  assert (module_entries h (modules c) = Some m) as He.
  { rewrite Hm. simpl. now rewrite Hp. }
  rewrite (bind_Ret _ _ _ _ _ (map_lookup_entries _ _ _ (Name x) He)).
  destruct (m !! Name x) as [w|]; [reflexivity|].
  rewrite (bind_Ret _ _ _ _ _ (deref_creator _ _ _ Ha)).
  rewrite Hm.
  rewrite (bind_Ret _ _ _ _ _ (map_assign_entries _ _ _ (Name x) {| wrapped := x |} Hp)).
  reflexivity.
Qed.

Lemma insert_same_object (h : heap) p o : h !! p = Some o -> <[p := o]> h = h.
Proof. apply insert_id. Qed.

(** Arguments whose names are all new are inserted one after the other. *)
Lemma RegisterModules_prefix h a mp m pre rest :
  holds_registry h a mp m ->
  NoDup (Name <$> pre) ->
  (∀ x, x ∈ pre -> m !! Name x = None) ->
  RegisterModules (Some a) (pre ++ rest) h =
  RegisterModules (Some a) rest (<[mp := ModulesObj (register_all m pre)]> h).
Proof.
  revert h m. induction pre as [|x pre IH]; intros h m Hw Hnd Hnew.
  - simpl. destruct Hw as (c & _ & _ & Hp). now rewrite insert_same_object.
  - rewrite fmap_cons in Hnd. apply NoDup_cons in Hnd as [Hx Hnd].
    change ((x :: pre) ++ rest) with (x :: (pre ++ rest)).
    rewrite (RegisterModules_cons _ _ _ _ _ _ Hw).
    rewrite (Hnew x) by left.
    rewrite (IH _ _ (holds_registry_update _ _ _ _ _ Hw) Hnd).
    + now rewrite insert_insert_eq.
    + intros y Hy. rewrite lookup_insert_ne; [apply Hnew; now right|].
      intros Heq. apply Hx. rewrite Heq. now apply list_elem_of_fmap_2.
Qed.

Lemma register_all_lookup_old m ms k w :
  m !! k = Some w -> register_all m ms !! k = Some w \/ k ∈ Name <$> ms.
Proof.
  revert m. induction ms as [|x ms IH]; intros m Hk; [now left|].
  simpl. destruct (decide (Name x = k)) as [<-|Hne].
  - right. left.
  - destruct (IH (<[Name x := {| wrapped := x |}]> m)) as [H|H].
    + now rewrite lookup_insert_ne.
    + now left.
    + right. now right.
Qed.

Lemma register_all_fresh m ms k :
  k ∉ Name <$> ms -> register_all m ms !! k = m !! k.
Proof.
  revert m. induction ms as [|x ms IH]; intros m Hk; [reflexivity|].
  simpl. rewrite fmap_cons in Hk. apply not_elem_of_cons in Hk as [Hne Hk].
  rewrite IH by done. now rewrite lookup_insert_ne.
Qed.

Lemma register_all_lookup_new m ms x :
  NoDup (Name <$> ms) -> x ∈ ms ->
  register_all m ms !! Name x = Some {| wrapped := x |}.
Proof.
  revert m. induction ms as [|y ms IH]; intros m Hnd Hx; [now apply elem_of_nil in Hx|].
  rewrite fmap_cons in Hnd. apply NoDup_cons in Hnd as [Hy Hnd].
  simpl. apply elem_of_cons in Hx as [->|Hx].
  - rewrite register_all_fresh by done. apply lookup_insert_eq.
  - now apply IH.
Qed.

Lemma register_all_subseteq m ms :
  NoDup (Name <$> ms) -> (∀ x, x ∈ ms -> m !! Name x = None) ->
  m ⊆ register_all m ms.
Proof.
  intros Hnd Hnew. apply map_subseteq_spec. intros k w Hk.
  rewrite register_all_fresh; [done|].
  intros Hin. apply list_elem_of_fmap in Hin as (x & -> & Hx).
  rewrite (Hnew x Hx) in Hk. discriminate.
Qed.

(** Whatever the arguments, a call returns, only the module map changes,
    and it only grows.  The call succeeds only when every argument's name
    was new. *)
Lemma RegisterModules_result h a mp m args :
  holds_registry h a mp m ->
  ∃ r m', RegisterModules (Some a) args h = (Ret r, <[mp := ModulesObj m']> h) ∧
          m ⊆ m' ∧
          match r with
          | Some e => ∃ n, e = DuplicateModuleError n ∧ n ∈ Name <$> args
          | None => m' = register_all m args ∧ NoDup (Name <$> args) ∧
                    ∀ x, x ∈ args -> m !! Name x = None
          end.
Proof.
  revert h m. induction args as [|x args IH]; intros h m Hw.
  - exists None, m. destruct Hw as (c & _ & _ & Hp).
    rewrite insert_same_object by done.
    repeat split; [done|constructor|]. intros x Hx. now apply elem_of_nil in Hx.
  - rewrite (RegisterModules_cons _ _ _ _ _ _ Hw).
    destruct (m !! Name x) as [w|] eqn:Hx.
    + exists (Some (DuplicateModuleError (Name x))), m.
      destruct Hw as (c & _ & _ & Hp). rewrite insert_same_object by done.
      repeat split; [done|]. exists (Name x). split; [done|left].
    + destruct (IH _ _ (holds_registry_update _ _ _ _
                          (<[Name x := {| wrapped := x |}]> m) Hw))
        as (r & m' & Hrun & Hsub & Hr).
      exists r, m'. rewrite Hrun, insert_insert_eq. repeat split.
      * etrans; [|exact Hsub]. now apply insert_subseteq.
      * destruct r as [e|].
        { destruct Hr as (n & -> & Hn). exists n. split; [done|now right]. }
        destruct Hr as (-> & Hnd & Hnew).
        assert (∀ y, y ∈ args -> Name y ≠ Name x ∧ m !! Name y = None) as Hsep.
        { intros y Hy. specialize (Hnew y Hy).
          destruct (decide (Name x = Name y)) as [Heq|Hne].
          - rewrite Heq, lookup_insert_eq in Hnew. discriminate.
          - rewrite lookup_insert_ne in Hnew by done. split; congruence. }
        split; [reflexivity|split].
        -- rewrite fmap_cons. apply NoDup_cons. split; [|done].
           intros Hin. apply list_elem_of_fmap in Hin as (y & Heq & Hy).
           destruct (Hsep y Hy) as [Hne _]. congruence.
        -- intros y Hy. apply elem_of_cons in Hy as [->|Hy]; [done|].
           now apply Hsep.
Qed.

Lemma RegisterModules_calls_result h a mp m calls :
  holds_registry h a mp m ->
  ∃ errs m', RegisterModules_calls (Some a) calls h
               = (Ret errs, <[mp := ModulesObj m']> h) ∧
             m ⊆ m' ∧ length errs = length calls.
Proof.
  revert h m. induction calls as [|ms calls IH]; intros h m Hw.
  - exists [], m. destruct Hw as (c & _ & _ & Hp).
    rewrite insert_same_object by done. done.
  - destruct (RegisterModules_result _ _ _ _ ms Hw) as (r & m1 & Hrun & Hsub & _).
    destruct (IH _ _ (holds_registry_update _ _ _ _ m1 Hw))
      as (errs & m2 & Hrest & Hsub2 & Hlen).
    exists (r :: errs), m2. simpl.
    rewrite (bind_Ret _ _ _ _ _ Hrun), (bind_Ret _ _ _ _ _ Hrest).
    rewrite insert_insert_eq. repeat split; [by etrans|simpl; now rewrite Hlen].
Qed.

(** C2: however the registry was filled, once a module named like [first]
    has been registered, a call whose arguments include a module with that
    name returns a duplicate-module error, and [first] stays the entry
    under that name: after the failed call and after any later calls. *)
Theorem RegisterModules_duplicate_rejected h a mp m first dup args between later :
  holds_registry h a mp m ->
  m !! Name first = None ->
  Name dup = Name first ->
  dup ∈ args ->
  ∃ h1 errs h2 n h3 errs' h4,
    RegisterModules (Some a) [first] h = (Ret None, h1) ∧
    RegisterModules_calls (Some a) between h1 = (Ret errs, h2) ∧
    RegisterModules (Some a) args h2 = (Ret (Some (DuplicateModuleError n)), h3) ∧
    n ∈ Name <$> args ∧
    (args = [dup] -> n = Name dup ∧ h3 = h2) ∧
    registry h3 a ≫= (.!! Name first) = Some {| wrapped := first |} ∧
    RegisterModules_calls (Some a) later h3 = (Ret errs', h4) ∧
    registry h4 a ≫= (.!! Name first) = Some {| wrapped := first |}.
Proof.
  intros Hw Hnew Hname Hdup.
  set (m1 := <[Name first := {| wrapped := first |}]> m).
  pose proof (holds_registry_update _ _ _ _ m1 Hw) as Hw1.
  destruct (RegisterModules_calls_result _ _ _ _ between Hw1) as (errs & m2 & Hb & Hsub2 & _).
  rewrite insert_insert_eq in Hb.
  pose proof (holds_registry_update _ _ _ _ m2 Hw) as Hw2.
  assert (m2 !! Name first = Some {| wrapped := first |}) as Hfirst2.
  { eapply lookup_weaken; [|exact Hsub2]. apply lookup_insert_eq. }
  destruct (RegisterModules_result _ _ _ _ args Hw2) as (r & m3 & Hrun & Hsub3 & Hr).
  rewrite insert_insert_eq in Hrun.
  pose proof (holds_registry_update _ _ _ _ m3 Hw) as Hw3.
  assert (m3 !! Name first = Some {| wrapped := first |}) as Hfirst3.
  { eapply lookup_weaken; [exact Hfirst2|exact Hsub3]. }
  destruct (RegisterModules_calls_result _ _ _ _ later Hw3) as (errs' & m4 & Hl & Hsub4 & _).
  rewrite insert_insert_eq in Hl.
  pose proof (holds_registry_update _ _ _ _ m4 Hw) as Hw4.
  destruct r as [e|].
  - destruct Hr as (n & -> & Hn).
    exists (<[mp := ModulesObj m1]> h), errs, (<[mp := ModulesObj m2]> h), n,
           (<[mp := ModulesObj m3]> h), errs', (<[mp := ModulesObj m4]> h).
    split; [|split; [exact Hb|split; [exact Hrun|split; [exact Hn|split; [|split; [|split]]]]]].
    + rewrite (RegisterModules_cons _ _ _ _ _ _ Hw), Hnew. reflexivity.
    + intros ->. apply list_elem_of_singleton in Hn as ->. split; [reflexivity|].
      rewrite (RegisterModules_cons _ _ _ _ _ _ Hw2), Hname, Hfirst2 in Hrun.
      now injection Hrun as <-.
    + rewrite (holds_registry_registry _ _ _ _ Hw3). exact Hfirst3.
    + exact Hl.
    + rewrite (holds_registry_registry _ _ _ _ Hw4). simpl.
      eapply lookup_weaken; [exact Hfirst3|exact Hsub4].
  - (* the call cannot have succeeded: the name of [dup] was taken *)
    destruct Hr as (_ & _ & Hfree). specialize (Hfree dup Hdup).
    rewrite Hname, Hfirst2 in Hfree. discriminate.
Qed.

(** C10: when the first duplicate among the arguments comes after
    arguments with new names, the call returns the error for it while the
    arguments before it have been inserted and stay in the registry. *)
Theorem RegisterModules_not_atomic h a mp m pre y post :
  holds_registry h a mp m ->
  NoDup (Name <$> pre) ->
  (∀ x, x ∈ pre -> m !! Name x = None) ->
  is_Some (m !! Name y) ∨ Name y ∈ Name <$> pre ->
  ∃ h', RegisterModules (Some a) (pre ++ y :: post) h
          = (Ret (Some (DuplicateModuleError (Name y))), h') ∧
        h' = <[mp := ModulesObj (register_all m pre)]> h ∧
        registry h' a = Some (register_all m pre) ∧
        (∀ x, x ∈ pre ->
           registry h' a ≫= (.!! Name x) = Some {| wrapped := x |}) ∧
        (∀ k w, m !! k = Some w -> registry h' a ≫= (.!! k) = Some w).
Proof.
  intros Hw Hnd Hnew Hdup.
  pose proof (holds_registry_update _ _ _ _ (register_all m pre) Hw) as Hw'.
  exists (<[mp := ModulesObj (register_all m pre)]> h).
  rewrite (holds_registry_registry _ _ _ _ Hw'). simpl.
  split; [|split; [reflexivity|split; [reflexivity|split]]].
  - rewrite (RegisterModules_prefix _ _ _ _ _ _ Hw Hnd Hnew).
    rewrite (RegisterModules_cons _ _ _ _ _ _ Hw').
    destruct (register_all m pre !! Name y) as [w|] eqn:Hy; [reflexivity|].
    exfalso. destruct Hdup as [[w Hold]|Hin].
    + destruct (register_all_lookup_old m pre (Name y) w Hold) as [H|H].
      * congruence.
      * apply list_elem_of_fmap in H as (x & Heq & Hx).
        rewrite Heq, (Hnew x Hx) in Hold. discriminate.
    + apply list_elem_of_fmap in Hin as (x & Heq & Hx).
      rewrite Heq, (register_all_lookup_new m pre x Hnd Hx) in Hy. discriminate.
  - intros x Hx. now apply register_all_lookup_new.
  - intros k w Hk.
    eapply lookup_weaken; [exact Hk|]. now apply register_all_subseteq.
Qed.

(** ** [Finish] *)

Lemma first_missing_Some m names n :
  first_missing m names = Some n ->
  ∃ pre post, names = pre ++ n :: post ∧ m !! n = None ∧
              ∀ k, k ∈ pre -> is_Some (m !! k).
Proof.
  induction names as [|k names IH]; simpl; [discriminate|].
  destruct (m !! k) as [w|] eqn:Hk.
  - intros Hn. destruct (IH Hn) as (pre & post & -> & Hnone & Hpre).
    exists (k :: pre), post. repeat split; [done|].
    intros k' Hk'. apply elem_of_cons in Hk' as [->|Hk']; [by eexists|auto].
  - intros [= <-]. exists [], names. repeat split; [done|].
    intros k' Hk'. now apply elem_of_nil in Hk'.
Qed.

Lemma first_missing_None m names :
  first_missing m names = None <-> ∀ k, k ∈ names -> is_Some (m !! k).
Proof.
  induction names as [|k names IH]; simpl.
  - split; [|done]. intros _ k Hk. now apply elem_of_nil in Hk.
  - destruct (m !! k) as [w|] eqn:Hk.
    + rewrite IH. split.
      * intros H k' Hk'. apply elem_of_cons in Hk' as [->|Hk']; [by eexists|auto].
      * intros H k' Hk'. apply H. now right.
    + split; [discriminate|]. intros H.
      destruct (H k) as [w Hw]; [left|]. congruence.
Qed.

(** The loop over the begin blockers reads the registry and nothing else:
    it stops at the first name without an entry. *)
Lemma Finish_blockers_result h a c m blockers :
  h !! a = Some (CreatorObj c) ->
  module_entries h (modules c) = Some m ->
  Finish_blockers (Some a) blockers h
  = (Ret (UnknownModuleError <$> first_missing m blockers), h).
Proof.
  intros Ha Hm. induction blockers as [|k blockers IH]; [reflexivity|].
  simpl.
  rewrite (bind_Ret _ _ _ _ _ (deref_creator _ _ _ Ha)).
  rewrite (bind_Ret _ _ _ _ _ (map_lookup_entries _ _ _ k Hm)).
  destruct (m !! k); [exact IH|reflexivity].
Qed.

Section FinishProperties.

Context (E : Collaborators).

Lemma App_LoadLatestVersion_engine h c p b :
  engine_of h c = Some (p, b) ->
  App_LoadLatestVersion E (app c) h
  = (fst (LoadLatestVersion E b), <[p := BaseAppObj (snd (LoadLatestVersion E b))]> h).
Proof.
  unfold engine_of, App_LoadLatestVersion.
  destruct (app c) as [ap|]; [simpl|discriminate].
  unfold bind at 1. unfold deref at 1.
  destruct (h !! ap) as [o|]; [simpl|discriminate].
  destruct (as_app o) as [application|]; [simpl|discriminate].
  destruct (BaseApp application) as [q|]; [simpl|discriminate].
  unfold bind, deref.
  destruct (h !! q) as [o'|]; [simpl|discriminate].
  destruct (as_baseapp o') as [b0|]; [simpl|discriminate].
  intros [= -> ->]. now destruct (LoadLatestVersion E b).
Qed.

(** What [Finish] does on a creator whose engine has been constructed. *)
Lemma Finish_constructed h a c m ap cfg loadLatest :
  h !! a = Some (CreatorObj c) ->
  module_entries h (modules c) = Some m ->
  app c = Some ap ->
  config c = Some cfg ->
  Finish E (Some a) loadLatest h =
  match first_missing m (BeginBlockers cfg) with
  | Some n => (Ret (Some (UnknownModuleError n)), h)
  | None =>
      if loadLatest
      then match App_LoadLatestVersion E (app c) h with
           | (Ret err, h') => (Ret err, h')
           | (Panic p, h') => (Panic p, h')
           end
      else (Ret None, h)
  end.
Proof.
  intros Ha Hm Hap Hcfg. unfold Finish.
  rewrite (bind_Ret _ _ _ _ _ (deref_creator _ _ _ Ha)).
  rewrite Hap, Hcfg. simpl deref_config.
  rewrite (bind_Ret (ret cfg) _ h cfg h eq_refl).
  rewrite (bind_Ret _ _ _ _ _ (Finish_blockers_result _ _ _ _ (BeginBlockers cfg) Ha Hm)).
  destruct (first_missing m (BeginBlockers cfg)) as [n|]; [reflexivity|]. simpl.
  destruct loadLatest; [|reflexivity].
  rewrite (bind_Ret _ _ _ _ _ (deref_creator _ _ _ Ha)).
  rewrite Hap. unfold bind.
  destruct (App_LoadLatestVersion E (Some ap) h) as [[[e|]|p] h']; reflexivity.
Qed.

(** C1: with the engine constructed, a begin blocker without an entry in
    the registry makes [Finish] return the unknown-module error for the
    first such name of the list, and the heap (creator, registry, builder,
    engine) is left as it was. *)
Theorem Finish_unknown_module h a c m ap cfg k loadLatest :
  h !! a = Some (CreatorObj c) ->
  module_entries h (modules c) = Some m ->
  app c = Some ap ->
  config c = Some cfg ->
  k ∈ BeginBlockers cfg ->
  m !! k = None ->
  ∃ n pre post,
    Finish E (Some a) loadLatest h = (Ret (Some (UnknownModuleError n)), h) ∧
    BeginBlockers cfg = pre ++ n :: post ∧
    m !! n = None ∧
    (∀ k', k' ∈ pre -> is_Some (m !! k')) ∧
    ((∀ k', k' ∈ BeginBlockers cfg -> m !! k' = None -> k' = k) -> n = k).
Proof.
  intros Ha Hm Hap Hcfg Hk Hnone.
  rewrite (Finish_constructed _ _ _ _ _ _ loadLatest Ha Hm Hap Hcfg).
  destruct (first_missing m (BeginBlockers cfg)) as [n|] eqn:Hfm.
  - destruct (first_missing_Some _ _ _ Hfm) as (pre & post & Heq & Hn & Hpre).
    exists n, pre, post. repeat split; try done.
    intros Honly. apply Honly; [|done].
    rewrite Heq. apply elem_of_app. right. left.
  - destruct (proj1 (first_missing_None _ _) Hfm k Hk) as [w Hw]. congruence.
Qed.

Lemma Finish_not_created h a c loadLatest :
  h !! a = Some (CreatorObj c) ->
  app c = None ->
  Finish E (Some a) loadLatest h = (Ret (Some NotCreatedError), h).
Proof.
  intros Ha Hap. unfold Finish.
  rewrite (bind_Ret _ _ _ _ _ (deref_creator _ _ _ Ha)).
  now rewrite Hap.
Qed.

(** C3: on a creator whose [app] handle is still nil, [Finish] returns
    the not-created error for either value of [loadLatest], and the heap,
    with the registry in it, is left as it was. *)
Theorem Finish_before_Create h a c loadLatest :
  h !! a = Some (CreatorObj c) ->
  app c = None ->
  ∃ h', Finish E (Some a) loadLatest h = (Ret (Some NotCreatedError), h') ∧
        h' = h ∧ registry h' a = registry h a.
Proof.
  intros Ha Hap. exists h. split; [|done].
  exact (Finish_not_created _ _ _ loadLatest Ha Hap).
Qed.

Lemma engine_of_inv h c p b :
  engine_of h c = Some (p, b) ->
  ∃ ap application,
    app c = Some ap ∧ h !! ap = Some (AppObj application) ∧
    BaseApp application = Some p ∧ h !! p = Some (BaseAppObj b).
Proof.
  unfold engine_of.
  destruct (app c) as [ap|]; [simpl|discriminate].
  destruct (h !! ap) as [[]|] eqn:Hap; try discriminate. simpl.
  destruct (BaseApp a) as [q|] eqn:Hq; [simpl|discriminate].
  destruct (h !! q) as [[]|] eqn:Hb; try discriminate. simpl.
  intros [= -> ->]. eauto 10.
Qed.

Lemma App_LoadLatestVersion_no_engine h c :
  engine_of h c = None ->
  App_LoadLatestVersion E (app c) h = (Panic NilDereference, h).
Proof.
  unfold engine_of, App_LoadLatestVersion, bind, deref.
  destruct (app c) as [ap|]; [simpl|reflexivity].
  destruct (h !! ap) as [o|]; [simpl|reflexivity].
  destruct (as_app o) as [application|]; [simpl|reflexivity].
  destruct (BaseApp application) as [q|]; [simpl|reflexivity].
  destruct (h !! q) as [o'|]; [simpl|reflexivity].
  destruct (as_baseapp o') as [b0|]; [simpl|reflexivity].
  discriminate.
Qed.

(** The engine rewriting its own state leaves the creator, its registry
    and its handle on the engine in place. *)
Lemma engine_update_frame h a c m p b b' :
  h !! a = Some (CreatorObj c) ->
  module_entries h (modules c) = Some m ->
  engine_of h c = Some (p, b) ->
  <[p := BaseAppObj b']> h !! a = Some (CreatorObj c) ∧
  module_entries (<[p := BaseAppObj b']> h) (modules c) = Some m ∧
  engine_of (<[p := BaseAppObj b']> h) c = Some (p, b').
Proof.
  intros Ha Hm He.
  destruct (engine_of_inv _ _ _ _ He) as (ap & application & Hap & Hobj & Hp & Hb).
  assert (p ≠ a) as Hpa by (intros ->; congruence).
  assert (p ≠ ap) as Hpap by (intros ->; congruence).
  split; [|split].
  - now rewrite lookup_insert_ne.
  - destruct (modules c) as [mp|]; [|done]. simpl in *.
    destruct (h !! mp) as [o|] eqn:Hmp; [|discriminate].
    assert (p ≠ mp) as Hpm.
    { intros ->. rewrite Hb in Hmp. injection Hmp as <-. discriminate. }
    rewrite lookup_insert_ne by done. now rewrite Hmp.
  - unfold engine_of. rewrite Hap. simpl.
    rewrite lookup_insert_ne by done. rewrite Hobj. simpl.
    rewrite Hp. simpl. now rewrite lookup_insert_eq.
Qed.

(** C8: with every begin blocker registered, a failing load of the latest
    state is what [Finish(true)] returns, as the very error value; the
    engine may have rewritten its own state, the creator, its engine
    handle and its registry are as before, and a later [Finish] runs the
    load again. *)
Theorem Finish_load_failure h a c m cfg p b err b' :
  h !! a = Some (CreatorObj c) ->
  module_entries h (modules c) = Some m ->
  config c = Some cfg ->
  engine_of h c = Some (p, b) ->
  (∀ k, k ∈ BeginBlockers cfg -> is_Some (m !! k)) ->
  LoadLatestVersion E b = (Ret (Some err), b') ->
  ∃ h', Finish E (Some a) true h = (Ret (Some err), h') ∧
        h' = <[p := BaseAppObj b']> h ∧
        h' !! a = Some (CreatorObj c) ∧
        module_entries h' (modules c) = Some m ∧
        engine_of h' c = Some (p, b') ∧
        ∀ b'', LoadLatestVersion E b' = (Ret None, b'') ->
               Finish E (Some a) true h' = (Ret None, <[p := BaseAppObj b'']> h).
Proof.
  intros Ha Hm Hcfg He Hall Hload.
  destruct (engine_of_inv _ _ _ _ He) as (ap & application & Hap & _).
  destruct (engine_update_frame _ _ _ _ _ _ b' Ha Hm He) as (Ha' & Hm' & He').
  apply first_missing_None in Hall.
  exists (<[p := BaseAppObj b']> h).
  split; [|split; [reflexivity|split; [exact Ha'|split; [exact Hm'|split; [exact He'|]]]]].
  - rewrite (Finish_constructed _ _ _ _ _ _ true Ha Hm Hap Hcfg), Hall.
    rewrite (App_LoadLatestVersion_engine _ _ _ _ He), Hload. reflexivity.
  - intros b'' Hagain.
    rewrite (Finish_constructed _ _ _ _ _ _ true Ha' Hm' Hap Hcfg), Hall.
    rewrite (App_LoadLatestVersion_engine _ _ _ _ He'), Hagain. simpl.
    now rewrite insert_insert_eq.
Qed.

(** C4, as the code has it: a [Finish] that succeeded has not moved the
    creator to another state.  The creator and its registry are as
    before, and calling [Finish(false)] again succeeds again. *)
Theorem Finish_repeatable h a c m loadLatest h1 :
  h !! a = Some (CreatorObj c) ->
  module_entries h (modules c) = Some m ->
  Finish E (Some a) loadLatest h = (Ret None, h1) ->
  h1 !! a = Some (CreatorObj c) ∧
  module_entries h1 (modules c) = Some m ∧
  Finish E (Some a) false h1 = (Ret None, h1).
Proof.
  intros Ha Hm Hrun.
  destruct (app c) as [ap|] eqn:Hap.
  2: { rewrite (Finish_not_created _ _ _ _ Ha Hap) in Hrun. discriminate. }
  destruct (config c) as [cfg|] eqn:Hcfg.
  2: { unfold Finish in Hrun.
       rewrite (bind_Ret _ _ _ _ _ (deref_creator _ _ _ Ha)) in Hrun.
       rewrite Hap, Hcfg in Hrun. discriminate. }
  rewrite (Finish_constructed _ _ _ _ _ _ loadLatest Ha Hm Hap Hcfg) in Hrun.
  destruct (first_missing m (BeginBlockers cfg)) as [n|] eqn:Hfm; [discriminate|].
  assert (∀ h', h' !! a = Some (CreatorObj c) ->
                module_entries h' (modules c) = Some m ->
                Finish E (Some a) false h' = (Ret None, h')) as Hagain.
  { intros h' Ha' Hm'.
    now rewrite (Finish_constructed _ _ _ _ _ _ false Ha' Hm' Hap Hcfg), Hfm. }
  destruct loadLatest.
  - destruct (engine_of h c) as [[p b]|] eqn:He.
    + rewrite (App_LoadLatestVersion_engine _ _ _ _ He) in Hrun.
      destruct (engine_update_frame _ _ _ _ _ _ (snd (LoadLatestVersion E b)) Ha Hm He)
        as (Ha' & Hm' & _).
      destruct (fst (LoadLatestVersion E b)) as [[e|]|]; try discriminate.
      injection Hrun as <-. auto.
    + rewrite (App_LoadLatestVersion_no_engine _ _ He) in Hrun. discriminate.
  - injection Hrun as <-. auto.
Qed.

End FinishProperties.

(** ** Allocation *)

Lemma alloc_fresh h o :
  ∃ p, alloc o h = (Ret p, <[p := o]> h) ∧ h !! p = None.
Proof.
  exists (fresh (dom h)). split; [reflexivity|].
  apply not_elem_of_dom. apply is_fresh.
Qed.

Lemma engine_call_ret h p b method b' :
  h !! p = Some (BaseAppObj b) ->
  method b = Ret b' ->
  engine_call p method h = (Ret tt, <[p := BaseAppObj b']> h).
Proof.
  intros Hp Hm. unfold engine_call, bind, deref. rewrite Hp. simpl.
  now rewrite Hm.
Qed.

(** [provideApp] makes a creator without an engine handle, and
    [RegisterModules] does not give it one: only [Create] assigns
    [a.app]. *)
Lemma provideApp_not_created cfg b mp m calls h :
  h !! mp = Some (ModulesObj m) ->
  ∃ a h1 errs h2,
    provideApp cfg b (Some mp) h = (Ret (Some a), h1) ∧
    RegisterModules_calls (Some a) calls h1 = (Ret errs, h2) ∧
    h2 !! a = Some (CreatorObj {| builder := b; modules := Some mp;
                                  app := None; config := cfg |}).
Proof.
  intros Hmp. unfold provideApp.
  set (c := {| builder := b; modules := Some mp; app := None; config := cfg |}).
  destruct (alloc_fresh h (CreatorObj c)) as (a & Ha & Hnew).
  rewrite (bind_Ret _ _ _ _ _ Ha).
  assert (a ≠ mp) as Hne by (intros ->; congruence).
  assert (holds_registry (<[a := CreatorObj c]> h) a mp m) as Hw.
  { exists c. rewrite lookup_insert_eq, lookup_insert_ne by done. done. }
  destruct (RegisterModules_calls_result _ _ _ _ calls Hw) as (errs & m' & Hrun & _).
  exists a, (<[a := CreatorObj c]> h), errs. eexists.
  split; [reflexivity|]. split; [exact Hrun|].
  rewrite lookup_insert_ne by done. apply lookup_insert_eq.
Qed.

(** ** [Create] *)

Section CreateProperties.

Context (E : Collaborators).

(** The optional inter-block cache is the only thing [Create] allocates
    before it consults the pruning options, the database and the snapshot
    store. *)
Lemma Create_cache_stage (flag : bool) h :
  ∃ cache h0,
    (if flag
     then let* manager := alloc CacheManagerObj in ret (Some manager)
     else ret None) h = (Ret cache, h0) ∧
    h ⊆ h0 ∧
    ∀ q o, h0 !! q = Some o -> h !! q = Some o ∨ (o = CacheManagerObj ∧ h !! q = None).
Proof.
  destruct flag.
  - destruct (alloc_fresh h CacheManagerObj) as (p & Hp & Hnone).
    exists (Some p), (<[p := CacheManagerObj]> h).
    rewrite (bind_Ret _ _ _ _ _ Hp). repeat split.
    + now apply insert_subseteq.
    + intros q o. destruct (decide (p = q)) as [<-|Hne].
      * rewrite lookup_insert_eq. intros [= <-]. now right.
      * rewrite lookup_insert_ne by done. now left.
  - exists None, h. repeat split; [done|]. intros q o Hq. now left.
Qed.

(** C9: when the pruning options cannot be parsed, or the snapshot
    metadata database or the snapshot store cannot be opened, [Create]
    panics with that error.  No handle is returned, the creator is not
    written to, and the only object that may have come into being is the
    inter-block cache: no engine and no application. *)
Theorem Create_fatal a logger db traceStore appOpts baseAppOptions err h :
  let snapshotDir :=
    filepath_Join E [ToString E (Get appOpts FlagHome); "data"; "snapshots"] in
  (∃ p, GetPruningOptionsFromFlags E appOpts = (p, Some err)) ∨
  (∃ p d, GetPruningOptionsFromFlags E appOpts = (p, None) ∧
          NewDB E "metadata" (GetAppDBBackend E appOpts) snapshotDir = (d, Some err)) ∨
  (∃ p d s, GetPruningOptionsFromFlags E appOpts = (p, None) ∧
            NewDB E "metadata" (GetAppDBBackend E appOpts) snapshotDir = (d, None) ∧
            NewStore E d snapshotDir = (s, Some err)) ->
  ∃ h', Create E a logger db traceStore appOpts baseAppOptions h
          = (Panic (PanicError err), h') ∧
        (∀ q o, h !! q = Some o -> h' !! q = Some o) ∧
        (∀ q o, h' !! q = Some o ->
           h !! q = Some o ∨ (o = CacheManagerObj ∧ h !! q = None)).
Proof.
  intros snapshotDir Hfail. unfold Create, interBlockCache.
  destruct (Create_cache_stage (ToBool E (Get appOpts FlagInterBlockCache)) h)
    as (cache & h0 & Hstage & Hsub & Hnew).
  rewrite (bind_Ret _ _ _ _ _ Hstage).
  exists h0. split; [|split; [|exact Hnew]].
  - destruct Hfail as [(p & Hp)|[(p & d & Hp & Hd)|(p & d & s & Hp & Hd & Hs)]].
    + now rewrite Hp.
    + rewrite Hp. fold snapshotDir. now rewrite Hd.
    + rewrite Hp. fold snapshotDir. rewrite Hd. now rewrite Hs.
  - intros q o Hq. eapply lookup_weaken; [exact Hq|exact Hsub].
Qed.

Lemma interBlockCache_extends appOpts h cache h0 :
  interBlockCache E appOpts h = (Ret cache, h0) ->
  (∀ q o, h !! q = Some o -> h0 !! q = Some o) ∧
  (∀ q o, h0 !! q = Some o ->
     h !! q = Some o ∨ (o = CacheManagerObj ∧ h !! q = None)).
Proof.
  unfold interBlockCache. intros Hrun.
  destruct (Create_cache_stage (ToBool E (Get appOpts FlagInterBlockCache)) h)
    as (cache' & h0' & Hstage & Hsub & Hnew).
  rewrite Hrun in Hstage. injection Hstage as <- <-.
  split; [|exact Hnew]. intros q o Hq. exact (lookup_weaken _ _ _ _ Hq Hsub).
Qed.

Lemma baseapp_option_ret o h :
  option_panic E o = None -> baseapp_option E o h = (Ret o, h).
Proof. intros Ho. unfold baseapp_option. now rewrite Ho. Qed.

(** How [Create] runs once the collaborators before the engine have
    succeeded, the engine constructor has gone well and the first two
    setters have returned. *)
Lemma Create_run a c cfg pr d s logger db traceStore appOpts
    baseAppOptions h cache h0 bApp st h1 st1 st2 :
  let snapshotDir :=
    filepath_Join E [ToString E (Get appOpts FlagHome); "data"; "snapshots"] in
  h !! a = Some (CreatorObj c) ->
  config c = Some cfg ->
  GetPruningOptionsFromFlags E appOpts = (pr, None) ->
  NewDB E "metadata" (GetAppDBBackend E appOpts) snapshotDir = (d, None) ->
  NewStore E d snapshotDir = (s, None) ->
  (∀ o, o ∈ derived_options E appOpts pr s cache -> option_panic E o = None) ->
  interBlockCache E appOpts h = (Ret cache, h0) ->
  builds_engine E (AppName cfg) logger db
    (baseAppOptions ++ derived_options E appOpts pr s cache) h0 bApp st h1 ->
  SetCommitMultiStoreTracer E st traceStore = Ret st1 ->
  SetVersion E st1 (version_Version E) = Ret st2 ->
  match builder c ≫= (fun bp => h1 !! bp ≫= as_builder) with
  | None =>
      Create E (Some a) logger db traceStore appOpts baseAppOptions h
      = (Panic NilDereference, <[bApp := BaseAppObj st2]> h1)
  | Some bd =>
      ∀ st3, SetInterfaceRegistry E st2 (interfaceRegistry bd) = Ret st3 ->
      ∃ pa, h1 !! pa = None ∧ pa ≠ bApp ∧ pa ≠ a ∧
        Create E (Some a) logger db traceStore appOpts baseAppOptions h
        = (Ret (Some pa),
           <[a := CreatorObj {| builder := builder c; modules := modules c;
                                app := Some pa; config := config c |}]>
             (<[pa := AppObj {| BaseApp := Some bApp |}]>
                (<[bApp := BaseAppObj st3]> h1)))
  end.
Proof.
  intros snapshotDir Ha Hcfg Hpr Hdb Hst Hopts Hcache
         (Hnew & Hfresh & Hst0 & Hframe) Htracer Hversion.
  destruct (interBlockCache_extends _ _ _ _ Hcache) as [Hsub _].
  unfold Create. rewrite (bind_Ret _ _ _ _ _ Hcache).
  rewrite Hpr. fold snapshotDir. rewrite Hdb, Hst.
  do 9 (erewrite bind_Ret;
          [|apply baseapp_option_ret, Hopts; unfold derived_options; repeat constructor]).
  pose proof (Hsub _ _ Ha) as Ha0. pose proof (Hframe _ _ Ha0) as Ha1.
  assert (bApp ≠ a) as Hba by (intros ->; congruence).
  rewrite (bind_Ret _ _ _ _ _ (deref_creator _ _ _ Ha0)).
  rewrite Hcfg. simpl deref_config.
  rewrite (bind_Ret (ret cfg) _ h0 cfg h0 eq_refl).
  erewrite bind_Ret; [|exact Hnew].
  erewrite bind_Ret; [|eapply engine_call_ret; [exact Hst0|exact Htracer]].
  erewrite bind_Ret; [|eapply engine_call_ret; [apply lookup_insert_eq|exact Hversion]].
  rewrite insert_insert_eq.
  erewrite bind_Ret; [|apply deref_creator; rewrite lookup_insert_ne by done; exact Ha1].
  destruct (builder c) as [bp|] eqn:Hb; simpl; [|reflexivity].
  assert (<[bApp := BaseAppObj st2]> h1 !! bp ≫= as_builder = h1 !! bp ≫= as_builder)
    as Hbp.
  { destruct (decide (bApp = bp)) as [<-|Hne].
    - now rewrite lookup_insert_eq, Hst0.
    - now rewrite lookup_insert_ne. }
  destruct (h1 !! bp ≫= as_builder) as [bd|].
  2: { now rewrite (bind_Panic _ _ _ _ _ (deref_panic _ _ _ Hbp)). }
  intros st3 Hregistry.
  rewrite (bind_Ret _ _ _ _ _ (deref_ret _ _ _ _ Hbp)).
  erewrite bind_Ret; [|eapply engine_call_ret; [apply lookup_insert_eq|exact Hregistry]].
  rewrite insert_insert_eq.
  set (h2 := <[bApp := BaseAppObj st3]> h1).
  destruct (alloc_fresh h2 (AppObj {| BaseApp := Some bApp |})) as (pa & Hpa & Hpa_new).
  rewrite (bind_Ret _ _ _ _ _ Hpa).
  unfold h2 in Hpa_new. apply lookup_insert_None in Hpa_new as [Hpa1 Hbpa].
  assert (pa ≠ a) as Hpaa by (intros ->; congruence).
  unfold assign_app.
  erewrite bind_Ret.
  2: { erewrite bind_Ret.
       2: { apply deref_creator. rewrite lookup_insert_ne by done.
            unfold h2. rewrite lookup_insert_ne by done. exact Ha1. }
       reflexivity. }
  erewrite bind_Ret; [|apply deref_creator, lookup_insert_eq].
  exists pa. split; [exact Hpa1|]. split; [now apply not_eq_sym|]. split; [exact Hpaa|].
  unfold ret. simpl. now rewrite Hb, Hcfg.
Qed.

(** C5, as the code has it: [Create] has no guard on a handle already
    being there.  On any creator with a configuration and a builder, in
    whatever state, a call goes through when the three construction
    steps succeed, none of the nine option constructors panics, the
    engine constructor returns a new engine without writing to what was
    there, and the three engine setters return.  It then wraps that
    engine, set up by [SetCommitMultiStoreTracer], [SetVersion] and
    [SetInterfaceRegistry] on the builder's interface registry, in a new
    application object and stores that handle in the creator, in place
    of whatever handle was there; no other object that existed is
    written. *)
Theorem Create_constructs a c cfg bp bd pr d s logger db traceStore appOpts
    baseAppOptions h cache h0 bApp st h1 st1 st2 st3 :
  let snapshotDir :=
    filepath_Join E [ToString E (Get appOpts FlagHome); "data"; "snapshots"] in
  h !! a = Some (CreatorObj c) ->
  config c = Some cfg ->
  builder c = Some bp ->
  h !! bp = Some (BuilderObj bd) ->
  GetPruningOptionsFromFlags E appOpts = (pr, None) ->
  NewDB E "metadata" (GetAppDBBackend E appOpts) snapshotDir = (d, None) ->
  NewStore E d snapshotDir = (s, None) ->
  (∀ o, o ∈ derived_options E appOpts pr s cache -> option_panic E o = None) ->
  interBlockCache E appOpts h = (Ret cache, h0) ->
  builds_engine E (AppName cfg) logger db
    (baseAppOptions ++ derived_options E appOpts pr s cache) h0 bApp st h1 ->
  SetCommitMultiStoreTracer E st traceStore = Ret st1 ->
  SetVersion E st1 (version_Version E) = Ret st2 ->
  SetInterfaceRegistry E st2 (interfaceRegistry bd) = Ret st3 ->
  ∃ ap h',
    Create E (Some a) logger db traceStore appOpts baseAppOptions h
      = (Ret (Some ap), h') ∧
    h !! ap = None ∧ h !! bApp = None ∧
    (∀ old, app c = Some old -> is_Some (h !! old) -> ap ≠ old) ∧
    h' !! a = Some (CreatorObj {| builder := builder c; modules := modules c;
                                  app := Some ap; config := config c |}) ∧
    h' !! ap = Some (AppObj {| BaseApp := Some bApp |}) ∧
    h' !! bApp = Some (BaseAppObj st3) ∧
    (∀ q o, q ≠ a -> h !! q = Some o -> h' !! q = Some o).
Proof.
  intros snapshotDir Ha Hcfg Hb Hbd Hpr Hdb Hst Hopts Hcache Hbuilds
         Htracer Hversion Hregistry.
  pose proof (Create_run a c cfg pr d s logger db traceStore appOpts baseAppOptions
                h cache h0 bApp st h1 st1 st2
                Ha Hcfg Hpr Hdb Hst Hopts Hcache Hbuilds Htracer Hversion) as Hrun.
  destruct Hbuilds as (_ & Hfresh & Hst0 & Hframe).
  destruct (interBlockCache_extends _ _ _ _ Hcache) as [Hsub _].
  assert (∀ q o, h !! q = Some o -> h1 !! q = Some o) as Hkeep
    by (intros q o Hq; exact (Hframe _ _ (Hsub _ _ Hq))).
  assert (∀ q, h1 !! q = None -> h !! q = None) as Hback.
  { intros q Hq. destruct (h !! q) as [o|] eqn:Hhq; [|done].
    rewrite (Hkeep _ _ Hhq) in Hq. discriminate. }
  rewrite Hb in Hrun. simpl in Hrun. rewrite (Hkeep _ _ Hbd) in Hrun. simpl in Hrun.
  destruct (Hrun st3 Hregistry) as (pa & Hpa1 & Hpab & Hpaa & Hcreate).
  assert (bApp ≠ a) as Hba.
  { intros ->. rewrite (Hkeep _ _ Ha) in Hst0. discriminate. }
  assert (h !! bApp = None) as HbApp.
  { destruct (h !! bApp) as [o|] eqn:Ho; [|done].
    rewrite (Hsub _ _ Ho) in Hfresh. discriminate. }
  exists pa. eexists. split; [exact Hcreate|].
  split; [now apply Hback|]. split; [exact HbApp|].
  split.
  { intros old _ [o Ho] ->. rewrite (Hback _ Hpa1) in Ho. discriminate. }
  split; [now rewrite lookup_insert_eq, Hb|].
  split.
  { rewrite lookup_insert_ne by done. apply lookup_insert_eq. }
  split.
  { rewrite !lookup_insert_ne by done. apply lookup_insert_eq. }
  intros q o Hqa Hq.
  rewrite lookup_insert_ne by done.
  rewrite lookup_insert_ne by (intros ->; rewrite (Hback _ Hpa1) in Hq; discriminate).
  rewrite lookup_insert_ne by (intros ->; congruence).
  now apply Hkeep.
Qed.

End CreateProperties.

(** ** The builder *)

(** One request: a new key object, appended to the builder's list. *)
Lemma serve_step h bp bd r :
  h !! bp = Some (BuilderObj bd) ->
  ∃ k, h !! k = None ∧
       serve (Some bp) r h =
       (Ret k,
        <[bp := BuilderObj {| storeKeys := storeKeys bd ++ [k];
                              interfaceRegistry := interfaceRegistry bd;
                              cdc := cdc bd; amino := amino bd |}]>
          (<[k := StoreKeyObj (request_kind r) (ModuleKey_Name (request_key r))]> h)).
Proof.
  intros Hb.
  destruct (alloc_fresh h (StoreKeyObj (request_kind r) (ModuleKey_Name (request_key r))))
    as (k & Hk & Hnone).
  exists k. split; [exact Hnone|].
  assert (k ≠ bp) as Hne by (intros ->; congruence).
  assert (∀ kind key, request_kind r = kind -> request_key r = key ->
            (let* storeKey := NewStoreKey kind (ModuleKey_Name key) in
             run registerStoreKey (Some bp) storeKey in ret storeKey) h
            = (Ret k,
               <[bp := BuilderObj {| storeKeys := storeKeys bd ++ [k];
                                     interfaceRegistry := interfaceRegistry bd;
                                     cdc := cdc bd; amino := amino bd |}]>
                 (<[k := StoreKeyObj (request_kind r) (ModuleKey_Name (request_key r))]> h)))
    as Hbody.
  { intros kind key <- <-. unfold NewStoreKey.
    rewrite (bind_Ret _ _ _ _ _ Hk). unfold registerStoreKey.
    erewrite bind_Ret.
    2: { erewrite bind_Ret.
         2: { eapply deref_Some;
                [rewrite lookup_insert_ne by done; exact Hb|reflexivity]. }
         reflexivity. }
    reflexivity. }
  destruct r; simpl serve; now apply Hbody.
Qed.

(** Any run of requests: one new key per request, appended in order. *)
Lemma serve_all_result h bp bd rs :
  h !! bp = Some (BuilderObj bd) ->
  ∃ keys bd' h',
    serve_all (Some bp) rs h = (Ret keys, h') ∧
    h' !! bp = Some (BuilderObj bd') ∧
    storeKeys bd' = storeKeys bd ++ keys ∧
    interfaceRegistry bd' = interfaceRegistry bd ∧
    cdc bd' = cdc bd ∧ amino bd' = amino bd ∧
    NoDup keys ∧
    (∀ k, k ∈ keys -> h !! k = None) ∧
    (∀ q o, q ≠ bp -> h !! q = Some o -> h' !! q = Some o) ∧
    Forall2 (fun r k => h' !! k
               = Some (StoreKeyObj (request_kind r) (ModuleKey_Name (request_key r))))
            rs keys.
Proof.
  revert h bd. induction rs as [|r rs IH]; intros h bd Hb.
  - exists [], bd, h. simpl. rewrite app_nil_r.
    split_and!; try done; try (by constructor).
    intros k Hk. now apply elem_of_nil in Hk.
  - destruct (serve_step h bp bd r Hb) as (k & Hk & Hstep).
    assert (k ≠ bp) as Hne by (intros ->; congruence).
    match type of Hstep with _ = (_, ?hh) => set (h1 := hh) in * end.
    assert (h1 !! bp = Some (BuilderObj
              {| storeKeys := storeKeys bd ++ [k];
                 interfaceRegistry := interfaceRegistry bd;
                 cdc := cdc bd; amino := amino bd |})) as Hb1
      by apply lookup_insert_eq.
    destruct (IH _ _ Hb1)
      as (keys & bd' & h' & Hrun & Hb' & Hkeys & Hir & Hcdc & Ham & Hnd & Hfresh & Hold & Hobj).
    assert (h1 !! k = Some (StoreKeyObj (request_kind r) (ModuleKey_Name (request_key r))))
      as Hk1.
    { unfold h1. rewrite lookup_insert_ne by done. apply lookup_insert_eq. }
    exists (k :: keys), bd', h'. simpl serve_all.
    rewrite (bind_Ret _ _ _ _ _ Hstep), (bind_Ret _ _ _ _ _ Hrun).
    split; [reflexivity|]. split; [exact Hb'|].
    split; [rewrite Hkeys; simpl; now rewrite <- app_assoc|].
    split; [exact Hir|]. split; [exact Hcdc|]. split; [exact Ham|].
    split.
    { apply NoDup_cons. split; [|exact Hnd].
      intros Hin. rewrite (Hfresh k Hin) in Hk1. discriminate. }
    split.
    { intros k' Hk'. apply elem_of_cons in Hk' as [->|Hk']; [exact Hk|].
      specialize (Hfresh k' Hk'). unfold h1 in Hfresh.
      destruct (decide (bp = k')) as [<-|Hn1].
      { rewrite lookup_insert_eq in Hfresh. discriminate. }
      rewrite lookup_insert_ne in Hfresh by done.
      destruct (decide (k = k')) as [<-|Hn2]; [exact Hk|].
      now rewrite lookup_insert_ne in Hfresh. }
    split.
    { intros q o Hq Ho. apply Hold; [exact Hq|].
      unfold h1. rewrite lookup_insert_ne by done.
      rewrite lookup_insert_ne by (intros ->; congruence). exact Ho. }
    constructor; [|exact Hobj].
    apply Hold; [exact Hne|exact Hk1].
Qed.

(** C6: every request to a scoped store-key provider, whatever its kind
    and identifier, appends one entry of its own to the builder's list:
    after a run of requests the list has grown by the number of requests,
    and the appended keys are pairwise distinct new objects, one per
    request, even where identifiers repeat. *)
Theorem storeKeys_one_per_request h bp bd rs :
  h !! bp = Some (BuilderObj bd) ->
  ∃ keys bd' h',
    serve_all (Some bp) rs h = (Ret keys, h') ∧
    h' !! bp = Some (BuilderObj bd') ∧
    storeKeys bd' = storeKeys bd ++ keys ∧
    length (storeKeys bd') = length (storeKeys bd) + length rs ∧
    (storeKeys bd = [] -> length (storeKeys bd') = length rs) ∧
    NoDup keys ∧
    (∀ k, k ∈ keys -> h !! k = None) ∧
    Forall2 (fun r k => h' !! k
               = Some (StoreKeyObj (request_kind r) (ModuleKey_Name (request_key r))))
            rs keys.
Proof.
  intros Hb.
  destruct (serve_all_result h bp bd rs Hb)
    as (keys & bd' & h' & Hrun & Hb' & Hkeys & _ & _ & _ & Hnd & Hfresh & _ & Hobj).
  exists keys, bd', h'.
  pose proof (Forall2_length _ _ _ Hobj) as Hlen.
  repeat split; try done.
  - rewrite Hkeys, length_app. lia.
  - intros Hnil. rewrite Hkeys, Hnil. simpl. lia.
Qed.

(** C7: [provideBuilder] creates the interface registry, the codec and
    the legacy amino codec, one object each, new at that moment, and the
    codec is built over that registry.  The handles it exports are the
    very addresses the builder stores, and they stay the builder's
    handles, on the same objects, through any run of provider requests. *)
Theorem provideBuilder_shared_handles h rs :
  ∃ out bp bd h',
    provideBuilder h = (Ret (out, None), h') ∧
    Builder out = Some bp ∧
    h' !! bp = Some (BuilderObj bd) ∧
    storeKeys bd = [] ∧
    interfaceRegistry bd = InterfaceRegistry out ∧
    cdc bd = Codec out ∧
    amino bd = LegacyAmino out ∧
    h !! InterfaceRegistry out = None ∧ h !! Codec out = None ∧
    h !! LegacyAmino out = None ∧ h !! bp = None ∧
    h' !! InterfaceRegistry out = Some InterfaceRegistryObj ∧
    h' !! Codec out = Some (ProtoCodecObj (InterfaceRegistry out)) ∧
    h' !! LegacyAmino out = Some LegacyAminoObj ∧
    (∀ q o, h !! q = Some o -> h' !! q = Some o) ∧
    (∀ q, q ∉ [InterfaceRegistry out; Codec out; LegacyAmino out; bp] ->
          h' !! q = h !! q) ∧
    ∃ keys bd'' h'',
      serve_all (Some bp) rs h' = (Ret keys, h'') ∧
      h'' !! bp = Some (BuilderObj bd'') ∧
      interfaceRegistry bd'' = InterfaceRegistry out ∧
      cdc bd'' = Codec out ∧
      amino bd'' = LegacyAmino out ∧
      h'' !! InterfaceRegistry out = Some InterfaceRegistryObj ∧
      h'' !! Codec out = Some (ProtoCodecObj (InterfaceRegistry out)) ∧
      h'' !! LegacyAmino out = Some LegacyAminoObj.
Proof.
  unfold provideBuilder.
  destruct (alloc_fresh h InterfaceRegistryObj) as (ir & Hir & Hir_new).
  rewrite (bind_Ret _ _ _ _ _ Hir). set (h1 := <[ir := InterfaceRegistryObj]> h).
  destruct (alloc_fresh h1 (ProtoCodecObj ir)) as (pc & Hpc & Hpc_new).
  rewrite (bind_Ret _ _ _ _ _ Hpc). set (h2 := <[pc := ProtoCodecObj ir]> h1).
  destruct (alloc_fresh h2 LegacyAminoObj) as (am & Ham & Ham_new).
  rewrite (bind_Ret _ _ _ _ _ Ham). set (h3 := <[am := LegacyAminoObj]> h2).
  set (bd := {| storeKeys := []; interfaceRegistry := ir; cdc := pc; amino := am |}).
  destruct (alloc_fresh h3 (BuilderObj bd)) as (bp & Hbp & Hbp_new).
  rewrite (bind_Ret _ _ _ _ _ Hbp). set (h4 := <[bp := BuilderObj bd]> h3).
  unfold h1 in Hpc_new. apply lookup_insert_None in Hpc_new as [Hpc0 Hn1].
  unfold h2, h1 in Ham_new.
  apply lookup_insert_None in Ham_new as [Ham_new Hn2].
  apply lookup_insert_None in Ham_new as [Ham0 Hn3].
  unfold h3, h2, h1 in Hbp_new.
  apply lookup_insert_None in Hbp_new as [Hbp_new Hn4].
  apply lookup_insert_None in Hbp_new as [Hbp_new Hn5].
  apply lookup_insert_None in Hbp_new as [Hbp0 Hn6].
  assert (h4 !! ir = Some InterfaceRegistryObj) as Hir4.
  { unfold h4, h3, h2, h1. rewrite !lookup_insert_ne by done. apply lookup_insert_eq. }
  assert (h4 !! pc = Some (ProtoCodecObj ir)) as Hpc4.
  { unfold h4, h3, h2. rewrite !lookup_insert_ne by done. apply lookup_insert_eq. }
  assert (h4 !! am = Some LegacyAminoObj) as Ham4.
  { unfold h4, h3. rewrite !lookup_insert_ne by done. apply lookup_insert_eq. }
  assert (h4 !! bp = Some (BuilderObj bd)) as Hbp4 by apply lookup_insert_eq.
  assert (∀ q, q ∉ [ir; pc; am; bp] -> h4 !! q = h !! q) as Hrest.
  { intros q Hq. unfold h4, h3, h2, h1.
    rewrite !lookup_insert_ne; [done|..]; intros ->; apply Hq;
      repeat ((by left) || right). }
  destruct (serve_all_result h4 bp bd rs Hbp4)
    as (keys & bd'' & h'' & Hrun & Hb'' & _ & Hir'' & Hcdc'' & Ham'' & _ & _ & Hold & _).
  exists {| InterfaceRegistry := ir; Codec := pc; LegacyAmino := am; Builder := Some bp |},
         bp, bd, h4. simpl.
  repeat (split; [done|]).
  split.
  { intros q o Hq. rewrite Hrest; [done|].
    intros Hin. repeat (apply elem_of_cons in Hin as [->|Hin]; [congruence|]).
    now apply elem_of_nil in Hin. }
  split; [exact Hrest|].
  exists keys, bd'', h''.
  repeat (split; [done|]).
  split; [apply Hold; done|]. split; apply Hold; done.
Qed.

(** * The package at work on a concrete assembly *)

Example assemble_addresses :
  fst (assemble (sampleConfig ["auth"; "bank"]) ∅)
  = Ret ({| InterfaceRegistry := 0; Codec := 1; LegacyAmino := 2;
            Builder := Some sampleBuilder |}, Some sampleCreator).
Proof. vm_compute. reflexivity. Qed.

Example end_to_end :
  fst ((let* e := RegisterModules (Some sampleCreator) [bank; auth] in
        let* ap := Create sampleCollaborators (Some sampleCreator)
                          (MkLogger 0) (MkDB 0) None noOptions [] in
        let* f := Finish sampleCollaborators (Some sampleCreator) false in
        ret (e, ap, f)) (wired ["auth"; "bank"]))
  = Ret (None, Some 7, None).
Proof. vm_compute. reflexivity. Qed.

Example end_to_end_unknown :
  fst (Finish sampleCollaborators (Some sampleCreator) false
              (created sampleCollaborators ["auth"; "staking"]))
  = Ret (Some (UnknownModuleError "staking")).
Proof. vm_compute. reflexivity. Qed.

(** ** The theorems at concrete inputs *)

Lemma wired_holds_registry blockers :
  holds_registry (wired blockers) sampleCreator sampleRegistry ∅.
Proof. exists (sampleCreatorObj blockers None). repeat split. Qed.

Lemma Finish_unknown_module_witness :
  ∃ n pre post,
    Finish sampleCollaborators (Some sampleCreator) true
           (created sampleCollaborators ["auth"; "staking"])
    = (Ret (Some (UnknownModuleError n)),
       created sampleCollaborators ["auth"; "staking"]) ∧
    BeginBlockers (sampleConfig ["auth"; "staking"]) = pre ++ n :: post ∧
    register_all ∅ [bank; auth] !! n = None ∧
    (∀ k', k' ∈ pre -> is_Some (register_all ∅ [bank; auth] !! k')) ∧
    ((∀ k', k' ∈ BeginBlockers (sampleConfig ["auth"; "staking"]) ->
            register_all ∅ [bank; auth] !! k' = None -> k' = "staking") ->
     n = "staking").
Proof.
  apply (Finish_unknown_module sampleCollaborators
           (created sampleCollaborators ["auth"; "staking"]) sampleCreator
           (sampleCreatorObj ["auth"; "staking"] (Some 7))
           (register_all ∅ [bank; auth]) 7 (sampleConfig ["auth"; "staking"])
           "staking" true).
  - vm_compute; reflexivity.
  - vm_compute; reflexivity.
  - reflexivity.
  - reflexivity.
  - simpl. repeat constructor.
  - vm_compute; reflexivity.
Defined.

Lemma RegisterModules_duplicate_rejected_witness :
  ∃ h1 errs h2 n h3 errs' h4,
    RegisterModules (Some sampleCreator) [bank] (wired []) = (Ret None, h1) ∧
    RegisterModules_calls (Some sampleCreator) [[auth]] h1 = (Ret errs, h2) ∧
    RegisterModules (Some sampleCreator) [bank'] h2
      = (Ret (Some (DuplicateModuleError n)), h3) ∧
    n ∈ Name <$> [bank'] ∧
    ([bank'] = [bank'] -> n = Name bank' ∧ h3 = h2) ∧
    registry h3 sampleCreator ≫= (.!! Name bank) = Some {| wrapped := bank |} ∧
    RegisterModules_calls (Some sampleCreator) [[bank']; []] h3 = (Ret errs', h4) ∧
    registry h4 sampleCreator ≫= (.!! Name bank) = Some {| wrapped := bank |}.
Proof.
  apply (RegisterModules_duplicate_rejected (wired []) sampleCreator sampleRegistry ∅
           bank bank' [bank'] [[auth]] [[bank']; []]).
  - apply wired_holds_registry.
  - reflexivity.
  - reflexivity.
  - repeat constructor.
Defined.

Lemma RegisterModules_not_atomic_witness :
  ∃ h', RegisterModules (Some sampleCreator) ([bank; auth] ++ bank' :: [auth]) (wired [])
          = (Ret (Some (DuplicateModuleError (Name bank'))), h') ∧
        h' = <[sampleRegistry := ModulesObj (register_all ∅ [bank; auth])]> (wired []) ∧
        registry h' sampleCreator = Some (register_all ∅ [bank; auth]) ∧
        (∀ x, x ∈ [bank; auth] ->
           registry h' sampleCreator ≫= (.!! Name x) = Some {| wrapped := x |}) ∧
        (∀ k w, (∅ : gmap string AppModuleWiringWrapper) !! k = Some w ->
           registry h' sampleCreator ≫= (.!! k) = Some w).
Proof.
  apply (RegisterModules_not_atomic (wired []) sampleCreator sampleRegistry ∅
           [bank; auth] bank' [auth]).
  - apply wired_holds_registry.
  - apply (bool_decide_unpack _). vm_compute. exact I.
  - intros x _. reflexivity.
  - right. vm_compute. repeat constructor.
Defined.

Lemma Finish_before_Create_witness :
  ∃ h', Finish sampleCollaborators (Some sampleCreator) true (registered ["auth"; "bank"])
          = (Ret (Some NotCreatedError), h') ∧
        h' = registered ["auth"; "bank"] ∧
        registry h' sampleCreator = registry (registered ["auth"; "bank"]) sampleCreator.
Proof.
  apply (Finish_before_Create sampleCollaborators (registered ["auth"; "bank"])
           sampleCreator (sampleCreatorObj ["auth"; "bank"] None) true).
  - vm_compute; reflexivity.
  - reflexivity.
Defined.

(** C4 as stated fails: on the sample assembly the first [Finish]
    succeeds, and so does the second. *)
Lemma Finish_twice_counterexample :
  ¬ (∀ h1, Finish sampleCollaborators (Some sampleCreator) false
                  (created sampleCollaborators ["auth"; "bank"]) = (Ret None, h1) ->
           ∃ e h2, Finish sampleCollaborators (Some sampleCreator) false h1
                   = (Ret (Some e), h2)).
Proof.
  intros Hclaim.
  destruct (Hclaim (created sampleCollaborators ["auth"; "bank"])) as (e & h2 & Hsecond).
  - vm_compute; reflexivity.
  - vm_compute in Hsecond. discriminate.
Qed.

Lemma Finish_repeatable_witness :
  created sampleCollaborators ["auth"; "bank"] !! sampleCreator
    = Some (CreatorObj (sampleCreatorObj ["auth"; "bank"] (Some 7))) ∧
  module_entries (created sampleCollaborators ["auth"; "bank"])
                 (modules (sampleCreatorObj ["auth"; "bank"] (Some 7)))
    = Some (register_all ∅ [bank; auth]) ∧
  Finish sampleCollaborators (Some sampleCreator) false
         (created sampleCollaborators ["auth"; "bank"])
    = (Ret None, created sampleCollaborators ["auth"; "bank"]).
Proof.
  apply (Finish_repeatable sampleCollaborators
           (created sampleCollaborators ["auth"; "bank"]) sampleCreator
           (sampleCreatorObj ["auth"; "bank"] (Some 7))
           (register_all ∅ [bank; auth]) true
           (created sampleCollaborators ["auth"; "bank"])).
  - vm_compute; reflexivity.
  - vm_compute; reflexivity.
  - vm_compute; reflexivity.
Defined.

(** C5 as stated fails: on the sample assembly a second [Create] returns
    normally, with another handle than the first, and the creator then
    holds the second one. *)
Lemma Create_twice_counterexample :
  ¬ (∀ first h1 second h2,
       Create sampleCollaborators (Some sampleCreator) (MkLogger 0) (MkDB 0) None
              noOptions [] (registered ["auth"; "bank"]) = (Ret first, h1) ->
       Create sampleCollaborators (Some sampleCreator) (MkLogger 0) (MkDB 0) None
              noOptions [] h1 = (Ret second, h2) ->
       second = first ∧ creator_at h2 sampleCreator = creator_at h1 sampleCreator).
Proof.
  intros Hclaim.
  destruct (Hclaim (Some 7) (created sampleCollaborators ["auth"; "bank"]) (Some 9)
              (snd (Create sampleCollaborators (Some sampleCreator) (MkLogger 0) (MkDB 0)
                           None noOptions []
                           (created sampleCollaborators ["auth"; "bank"]))))
    as [Hsame _].
  - vm_compute; reflexivity.
  - vm_compute; reflexivity.
  - discriminate.
Qed.

Lemma plain_builds_engine panics pruning newDB newStore load appName logger db opts h0 :
  builds_engine (environment panics pruning newDB newStore load) appName logger db opts
    h0 (fresh (dom h0))
    {| name := appName; logger := logger; db := db; options := opts;
       cmsTracer := None; version := ""; appInterfaceRegistry := None; engine := 0 |}
    (<[fresh (dom h0) :=
         BaseAppObj {| name := appName; logger := logger; db := db; options := opts;
                       cmsTracer := None; version := "";
                       appInterfaceRegistry := None; engine := 0 |}]> h0).
Proof.
  assert (h0 !! fresh (dom h0) = None) as Hnew by apply not_elem_of_dom, is_fresh.
  split; [reflexivity|]. split; [exact Hnew|]. split; [apply lookup_insert_eq|].
  intros q o Hq. rewrite lookup_insert_ne; [exact Hq|]. intros Heq.
  rewrite Heq in Hnew. congruence.
Qed.

Lemma Create_constructs_witness :
  ∃ ap bApp st3 h',
    Create sampleCollaborators (Some sampleCreator) (MkLogger 0) (MkDB 0) None
           noOptions [] (created sampleCollaborators ["auth"; "bank"])
      = (Ret (Some ap), h') ∧
    created sampleCollaborators ["auth"; "bank"] !! ap = None ∧
    created sampleCollaborators ["auth"; "bank"] !! bApp = None ∧
    (∀ old, app (sampleCreatorObj ["auth"; "bank"] (Some 7)) = Some old ->
            is_Some (created sampleCollaborators ["auth"; "bank"] !! old) -> ap ≠ old) ∧
    h' !! sampleCreator = Some (CreatorObj (sampleCreatorObj ["auth"; "bank"] (Some ap))) ∧
    h' !! ap = Some (AppObj {| BaseApp := Some bApp |}) ∧
    h' !! bApp = Some (BaseAppObj st3) ∧
    appInterfaceRegistry st3 = Some 0 ∧
    (∀ q o, q ≠ sampleCreator ->
            created sampleCollaborators ["auth"; "bank"] !! q = Some o ->
            h' !! q = Some o).
Proof.
  edestruct (Create_constructs sampleCollaborators sampleCreator
               (sampleCreatorObj ["auth"; "bank"] (Some 7)) (sampleConfig ["auth"; "bank"])
               sampleBuilder
               {| storeKeys := []; interfaceRegistry := 0; cdc := 1; amino := 2 |}
               (MkPruningOptions 0) (MkDB 1) (MkSnapshotStore 0)
               (MkLogger 0) (MkDB 0) None noOptions []
               (created sampleCollaborators ["auth"; "bank"])
               None (created sampleCollaborators ["auth"; "bank"]))
    as (ap & h' & Hrun & Hap & Hb & Hold & Ha & Happ & Heng & Hframe).
  - vm_compute; reflexivity.
  - reflexivity.
  - reflexivity.
  - vm_compute; reflexivity.
  - reflexivity.
  - reflexivity.
  - reflexivity.
  - intros o _. reflexivity.
  - reflexivity.
  - apply plain_builds_engine.
  - reflexivity.
  - reflexivity.
  - reflexivity.
  - eexists ap, _, _, h'. split; [exact Hrun|]. split; [exact Hap|].
    split; [exact Hb|]. split; [exact Hold|]. split; [exact Ha|].
    split; [exact Happ|]. split; [exact Heng|]. split; [reflexivity|exact Hframe].
Defined.

Lemma Create_fatal_witness :
  ∃ h', Create brokenSnapshots (Some sampleCreator) (MkLogger 0) (MkDB 0) None
               noOptions [] (registered ["auth"; "bank"])
          = (Panic (PanicError StoreOpenError), h') ∧
        (∀ q o, registered ["auth"; "bank"] !! q = Some o -> h' !! q = Some o) ∧
        (∀ q o, h' !! q = Some o ->
           registered ["auth"; "bank"] !! q = Some o ∨
           (o = CacheManagerObj ∧ registered ["auth"; "bank"] !! q = None)).
Proof.
  apply (Create_fatal brokenSnapshots (Some sampleCreator) (MkLogger 0) (MkDB 0) None
           noOptions [] StoreOpenError (registered ["auth"; "bank"])).
  right. right. exists (MkPruningOptions 0), (MkDB 1), (MkSnapshotStore 0).
  repeat split.
Defined.

Lemma storeKeys_one_per_request_witness :
  ∃ keys bd' h',
    serve_all (Some sampleBuilder)
              [KVRequest {| ModuleKey_Name := "bank" |};
               KVRequest {| ModuleKey_Name := "bank" |};
               MemoryRequest {| ModuleKey_Name := "bank" |}] (wired [])
      = (Ret keys, h') ∧
    h' !! sampleBuilder = Some (BuilderObj bd') ∧
    storeKeys bd' = [] ++ keys ∧
    length (storeKeys bd') = 0 + 3 ∧
    ((@nil addr) = [] -> length (storeKeys bd') = 3) ∧
    NoDup keys ∧
    (∀ k, k ∈ keys -> wired [] !! k = None) ∧
    Forall2 (fun r k => h' !! k
               = Some (StoreKeyObj (request_kind r) (ModuleKey_Name (request_key r))))
            [KVRequest {| ModuleKey_Name := "bank" |};
             KVRequest {| ModuleKey_Name := "bank" |};
             MemoryRequest {| ModuleKey_Name := "bank" |}] keys.
Proof.
  apply (storeKeys_one_per_request (wired []) sampleBuilder
           {| storeKeys := []; interfaceRegistry := 0; cdc := 1; amino := 2 |}
           [KVRequest {| ModuleKey_Name := "bank" |};
            KVRequest {| ModuleKey_Name := "bank" |};
            MemoryRequest {| ModuleKey_Name := "bank" |}]).
  vm_compute; reflexivity.
Defined.

Example storeKeys_same_identifier_twice :
  fst (serve_all (Some sampleBuilder)
                 [KVRequest {| ModuleKey_Name := "bank" |};
                  KVRequest {| ModuleKey_Name := "bank" |}] (wired []))
  = Ret [6; 7].
Proof. vm_compute. reflexivity. Qed.

Lemma Finish_load_failure_witness :
  ∃ b b' h',
    engine_of (created flakyEngine ["auth"; "bank"])
              (sampleCreatorObj ["auth"; "bank"] (Some 7)) = Some (6, b) ∧
    Finish flakyEngine (Some sampleCreator) true (created flakyEngine ["auth"; "bank"])
      = (Ret (Some LoadError), h') ∧
    h' = <[6 := BaseAppObj b']> (created flakyEngine ["auth"; "bank"]) ∧
    h' !! sampleCreator = Some (CreatorObj (sampleCreatorObj ["auth"; "bank"] (Some 7))) ∧
    module_entries h' (modules (sampleCreatorObj ["auth"; "bank"] (Some 7)))
      = Some (register_all ∅ [bank; auth]) ∧
    engine_of h' (sampleCreatorObj ["auth"; "bank"] (Some 7)) = Some (6, b') ∧
    ∀ b'', LoadLatestVersion flakyEngine b' = (Ret None, b'') ->
           Finish flakyEngine (Some sampleCreator) true h'
           = (Ret None, <[6 := BaseAppObj b'']> (created flakyEngine ["auth"; "bank"])).
Proof.
  eexists _, _.
  assert (engine_of (created flakyEngine ["auth"; "bank"])
                    (sampleCreatorObj ["auth"; "bank"] (Some 7)) = Some (6, _)) as He
    by (vm_compute; reflexivity).
  destruct (Finish_load_failure flakyEngine
              (created flakyEngine ["auth"; "bank"]) sampleCreator
              (sampleCreatorObj ["auth"; "bank"] (Some 7))
              (register_all ∅ [bank; auth]) (sampleConfig ["auth"; "bank"])
              6 _ LoadError _
              ltac:(vm_compute; reflexivity)
              ltac:(vm_compute; reflexivity)
              eq_refl
              He
              ltac:(intros k Hk; simpl in Hk;
                    repeat (apply elem_of_cons in Hk as [->|Hk]; [by eexists|]);
                    now apply elem_of_nil in Hk)
              eq_refl) as (h' & Hrun & Hh' & Ha & Hm & He' & Hretry).
  exists h'. split; [exact He|]. split; [exact Hrun|]. split; [exact Hh'|].
  split; [exact Ha|]. split; [exact Hm|]. split; [exact He'|exact Hretry].
Defined.

(** * Further properties of the package *)

(** ** More on [RegisterModules] *)

Lemma register_all_size m ms :
  NoDup (Name <$> ms) -> (∀ x, x ∈ ms -> m !! Name x = None) ->
  size (register_all m ms) = size m + length ms.
Proof.
  revert m. induction ms as [|x ms IH]; intros m Hnd Hnew; simpl; [lia|].
  rewrite fmap_cons in Hnd. apply NoDup_cons in Hnd as [Hx Hnd].
  rewrite IH; [|done|].
  - rewrite map_size_insert_None by (apply Hnew; left). lia.
  - intros y Hy. rewrite lookup_insert_ne; [apply Hnew; now right|].
    intros Heq. apply Hx. rewrite Heq. now apply list_elem_of_fmap_2.
Qed.

(** X1: a call whose arguments carry pairwise distinct names, none of
    them registered yet, returns nil; afterwards every argument is found
    under its name, every earlier entry is still there, and the registry
    has grown by the number of arguments. *)
Theorem RegisterModules_success h a mp m args :
  holds_registry h a mp m ->
  NoDup (Name <$> args) ->
  (∀ x, x ∈ args -> m !! Name x = None) ->
  ∃ h' m',
    RegisterModules (Some a) args h = (Ret None, h') ∧
    registry h' a = Some m' ∧
    (∀ x, x ∈ args -> m' !! Name x = Some {| wrapped := x |}) ∧
    (∀ k w, m !! k = Some w -> m' !! k = Some w) ∧
    (∀ k, is_Some (m' !! k) -> is_Some (m !! k) ∨ k ∈ Name <$> args) ∧
    size m' = size m + length args.
Proof.
  intros Hw Hnd Hnew.
  exists (<[mp := ModulesObj (register_all m args)]> h), (register_all m args).
  split_and!.
  - rewrite <- (app_nil_r args) at 1.
    now rewrite (RegisterModules_prefix _ _ _ _ _ [] Hw Hnd Hnew).
  - apply (holds_registry_registry _ _ mp). now apply (holds_registry_update _ _ _ m).
  - intros x Hx. now apply register_all_lookup_new.
  - intros k w Hk. eapply lookup_weaken; [exact Hk|]. now apply register_all_subseteq.
  - intros k Hk. destruct (decide (k ∈ Name <$> args)) as [Hin|Hout]; [now right|].
    left. now rewrite register_all_fresh in Hk.
  - now apply register_all_size.
Qed.

(** X2: the call returns nil only in that case: a nil result means that
    the names of the arguments were pairwise distinct and all new. *)
Theorem RegisterModules_nil_only_when_new h a mp m args h' :
  holds_registry h a mp m ->
  RegisterModules (Some a) args h = (Ret None, h') ->
  NoDup (Name <$> args) ∧ (∀ x, x ∈ args -> m !! Name x = None) ∧
  h' = <[mp := ModulesObj (register_all m args)]> h.
Proof.
  intros Hw Hrun.
  destruct (RegisterModules_result _ _ _ _ args Hw) as (r & m' & Hres & _ & Hr).
  rewrite Hrun in Hres. injection Hres as <- ->.
  destruct Hr as (-> & Hnd & Hnew). done.
Qed.

(** X3: on a creator whose module map is nil, a call with at least one
    argument panics on the assignment into the nil map (the lookup before
    it reads the nil map without harm); nothing is written. *)
Theorem RegisterModules_nil_map h a c x rest :
  h !! a = Some (CreatorObj c) ->
  modules c = None ->
  RegisterModules (Some a) (x :: rest) h = (Panic NilMapAssignment, h).
Proof.
  intros Ha Hm. simpl.
  rewrite (bind_Ret _ _ _ _ _ (deref_creator _ _ _ Ha)).
  rewrite Hm. simpl map_lookup.
  rewrite (bind_Ret (ret None) _ h None h eq_refl).
  rewrite (bind_Ret _ _ _ _ _ (deref_creator _ _ _ Ha)).
  rewrite Hm. reflexivity.
Qed.

(** X4: the module map is held by reference.  Two creators made over
    the same map share one registry: a module registered through one is
    a duplicate for the other. *)
Theorem RegisterModules_shared_map h a1 a2 mp m x x' :
  holds_registry h a1 mp m ->
  holds_registry h a2 mp m ->
  m !! Name x = None ->
  Name x' = Name x ->
  ∃ h1, RegisterModules (Some a1) [x] h = (Ret None, h1) ∧
        registry h1 a2 ≫= (.!! Name x) = Some {| wrapped := x |} ∧
        RegisterModules (Some a2) [x'] h1
        = (Ret (Some (DuplicateModuleError (Name x'))), h1).
Proof.
  intros Hw1 Hw2 Hnew Hname.
  set (m1 := <[Name x := {| wrapped := x |}]> m).
  pose proof (holds_registry_update _ _ _ _ m1 Hw2) as Hw2'.
  exists (<[mp := ModulesObj m1]> h). split_and!.
  - rewrite (RegisterModules_cons _ _ _ _ _ _ Hw1), Hnew. reflexivity.
  - rewrite (holds_registry_registry _ _ _ _ Hw2'). apply lookup_insert_eq.
  - rewrite (RegisterModules_cons _ _ _ _ _ _ Hw2'), Hname.
    unfold m1. now rewrite lookup_insert_eq.
Qed.

(** X5: whether it succeeds or fails, a call writes to the module map
    and to nothing else: the creator with its builder, engine handle and
    configuration, and every other object, are as before, and no object
    is created. *)
Theorem RegisterModules_frame h a mp m args r h' :
  holds_registry h a mp m ->
  RegisterModules (Some a) args h = (r, h') ->
  (∀ q, q ≠ mp -> h' !! q = h !! q) ∧
  h' !! a = h !! a ∧
  dom h' = dom h.
Proof.
  intros Hw Hrun.
  destruct (RegisterModules_result _ _ _ _ args Hw) as (r' & m' & Hres & _).
  rewrite Hrun in Hres. injection Hres as -> ->.
  destruct Hw as (c & Ha & Hm & Hp).
  pose proof (creator_ne_modules _ _ _ _ _ Ha Hp) as Hne.
  split_and!.
  - intros q Hq. now rewrite lookup_insert_ne.
  - now rewrite lookup_insert_ne.
  - apply dom_insert_lookup_L. by eexists.
Qed.

(** ** More on [Finish] *)

Lemma bind_inv {A B} (m : M A) (k : A -> M B) h r h' :
  bind m k h = (r, h') ->
  (∃ x h1, m h = (Ret x, h1) ∧ k x h1 = (r, h')) ∨
  (∃ p, m h = (Panic p, h') ∧ r = Panic p).
Proof.
  unfold bind. destruct (m h) as [[x|p] h1]; intros Hk.
  - left. eauto.
  - right. injection Hk as <- <-. eauto.
Qed.

Lemma deref_heap {A} (sel : object -> option A) p h r h' :
  deref sel p h = (r, h') -> h' = h.
Proof.
  unfold deref. destruct p as [a|]; [|now intros [= _ <-]].
  destruct (h !! a) as [o|]; [|now intros [= _ <-]].
  destruct (sel o); now intros [= _ <-].
Qed.

Lemma map_lookup_heap mp k h r h' : map_lookup mp k h = (r, h') -> h' = h.
Proof.
  destruct mp as [p|]; simpl; [|now intros [= _ <-]].
  intros Hb. apply bind_inv in Hb as [(x & h1 & Hd & Hr)|(q & Hd & _)].
  - apply deref_heap in Hd as ->. unfold ret in Hr. now injection Hr as _ <-.
  - now apply deref_heap in Hd.
Qed.

Lemma Finish_blockers_heap a blockers h r h' :
  Finish_blockers a blockers h = (r, h') -> h' = h.
Proof.
  revert h r h'. induction blockers as [|k blockers IH]; intros h r h'; simpl.
  - unfold ret. now intros [= _ <-].
  - intros Hb. apply bind_inv in Hb as [(c & h1 & Hd & Hb)|(q & Hd & _)];
      [|now apply deref_heap in Hd].
    apply deref_heap in Hd as ->.
    apply bind_inv in Hb as [(found & h1 & Hl & Hb)|(q & Hl & _)];
      [|now apply map_lookup_heap in Hl].
    apply map_lookup_heap in Hl as ->.
    destruct found; [now apply IH in Hb|]. unfold ret in Hb. now injection Hb as _ <-.
Qed.

Section MoreOnFinish.

Context (E : Collaborators).

(** X6: [Finish(false)] never writes: whatever the creator's state, and
    whether the call returns nil, returns an error or panics, the heap
    after it is the heap before it. *)
Theorem Finish_without_load_writes_nothing a h r h' :
  Finish E a false h = (r, h') -> h' = h.
Proof.
  unfold Finish. intros Hb.
  apply bind_inv in Hb as [(c & h1 & Hd & Hb)|(q & Hd & _)];
    [|now apply deref_heap in Hd].
  apply deref_heap in Hd as ->.
  destruct (app c); [|unfold ret in Hb; now injection Hb as _ <-].
  apply bind_inv in Hb as [(cfg & h1 & Hc & Hb)|(q & Hc & _)].
  2: { destruct (config c); unfold deref_config, ret, panic in Hc;
       now injection Hc as _ <-. }
  assert (h1 = h) as ->.
  { destruct (config c); unfold deref_config, ret, panic in Hc;
    now injection Hc as _ <-. }
  apply bind_inv in Hb as [(failed & h1 & Hf & Hb)|(q & Hf & _)];
    [|now apply Finish_blockers_heap in Hf].
  apply Finish_blockers_heap in Hf as ->.
  destruct failed; unfold ret in Hb; now injection Hb as _ <-.
Qed.

(** X7: on a creator with an engine handle and a configuration,
    [Finish(false)] returns nil exactly when every begin blocker of the
    configuration has an entry in the registry; an empty list of begin
    blockers always passes. *)
Theorem Finish_without_load_iff h a c m ap cfg :
  h !! a = Some (CreatorObj c) ->
  module_entries h (modules c) = Some m ->
  app c = Some ap ->
  config c = Some cfg ->
  (Finish E (Some a) false h = (Ret None, h) <->
   ∀ k, k ∈ BeginBlockers cfg -> is_Some (m !! k)) ∧
  (BeginBlockers cfg = [] -> Finish E (Some a) false h = (Ret None, h)).
Proof.
  intros Ha Hm Hap Hcfg.
  rewrite (Finish_constructed E _ _ _ _ _ _ false Ha Hm Hap Hcfg).
  split.
  - rewrite <- first_missing_None.
    destruct (first_missing m (BeginBlockers cfg)); split; congruence.
  - intros ->. reflexivity.
Qed.

(** X8: with every begin blocker registered, [Finish(true)] is the
    engine's load: what the load returns (nil, an error, or a panic) is
    what [Finish] returns, and the state the load left the engine in is
    the only change to the heap. *)
Theorem Finish_with_load_is_the_load h a c m cfg p b :
  h !! a = Some (CreatorObj c) ->
  module_entries h (modules c) = Some m ->
  config c = Some cfg ->
  engine_of h c = Some (p, b) ->
  (∀ k, k ∈ BeginBlockers cfg -> is_Some (m !! k)) ->
  Finish E (Some a) true h
  = (fst (LoadLatestVersion E b),
     <[p := BaseAppObj (snd (LoadLatestVersion E b))]> h).
Proof.
  intros Ha Hm Hcfg He Hall.
  destruct (engine_of_inv _ _ _ _ He) as (ap & application & Hap & _).
  apply first_missing_None in Hall.
  rewrite (Finish_constructed E _ _ _ _ _ _ true Ha Hm Hap Hcfg), Hall.
  rewrite (App_LoadLatestVersion_engine E _ _ _ _ He).
  now destruct (fst (LoadLatestVersion E b)).
Qed.

(** X9: a creator as [provideApp] makes it has no engine handle, and
    registering modules does not give it one: after [provideApp] and any
    run of [RegisterModules] calls, [Finish] returns the not-created
    error and writes nothing. *)
Theorem provideApp_then_Finish cfg b mp m calls loadLatest h :
  h !! mp = Some (ModulesObj m) ->
  ∃ a h1 errs h2,
    provideApp cfg b (Some mp) h = (Ret (Some a), h1) ∧
    h !! a = None ∧
    RegisterModules_calls (Some a) calls h1 = (Ret errs, h2) ∧
    Finish E (Some a) loadLatest h2 = (Ret (Some NotCreatedError), h2).
Proof.
  intros Hmp.
  destruct (provideApp_not_created cfg b mp m calls h Hmp)
    as (a & h1 & errs & h2 & Hp & Hcalls & Ha).
  exists a, h1, errs, h2. split_and!; try done.
  - unfold provideApp in Hp.
    apply bind_inv in Hp as [(x & h0 & Halloc & Hr)|(q & Halloc & _)];
      [|discriminate].
    unfold ret in Hr. injection Hr as -> ->.
    unfold alloc in Halloc. injection Halloc as <- _.
    apply not_elem_of_dom, is_fresh.
  - now apply (Finish_not_created E _ _ _ loadLatest Ha).
Qed.

(** X10: modules may still be registered once the engine is constructed.
    When one begin blocker is the only one without an entry, [Finish]
    fails on it; registering a module of that name makes the next
    [Finish(false)] return nil. *)
Theorem RegisterModules_after_Create h a c mp m ap cfg x :
  h !! a = Some (CreatorObj c) ->
  modules c = Some mp ->
  h !! mp = Some (ModulesObj m) ->
  app c = Some ap ->
  config c = Some cfg ->
  Name x ∈ BeginBlockers cfg ->
  m !! Name x = None ->
  (∀ k, k ∈ BeginBlockers cfg -> k = Name x ∨ is_Some (m !! k)) ->
  ∃ h1,
    Finish E (Some a) false h = (Ret (Some (UnknownModuleError (Name x))), h) ∧
    RegisterModules (Some a) [x] h = (Ret None, h1) ∧
    Finish E (Some a) false h1 = (Ret None, h1).
Proof.
  intros Ha Hmod Hmp Hap Hcfg Hin Hnew Hothers.
  assert (holds_registry h a mp m) as Hw by (exists c; done).
  assert (module_entries h (modules c) = Some m) as Hm.
  { rewrite Hmod. simpl. now rewrite Hmp. }
  set (m1 := <[Name x := {| wrapped := x |}]> m).
  pose proof (creator_ne_modules _ _ _ _ _ Ha Hmp) as Hne.
  exists (<[mp := ModulesObj m1]> h). split_and!.
  - rewrite (Finish_constructed E _ _ _ _ _ _ false Ha Hm Hap Hcfg).
    destruct (first_missing m (BeginBlockers cfg)) as [n|] eqn:Hfm.
    + destruct (first_missing_Some _ _ _ Hfm) as (pre & post & Heq & Hn & _).
      destruct (Hothers n) as [->|[w Hw']]; [|done|congruence].
      rewrite Heq. apply elem_of_app. right. left.
    + destruct (proj1 (first_missing_None _ _) Hfm _ Hin) as [w Hw']. congruence.
  - rewrite (RegisterModules_cons _ _ _ _ _ _ Hw), Hnew. reflexivity.
  - assert (<[mp := ModulesObj m1]> h !! a = Some (CreatorObj c)) as Ha1
      by now rewrite lookup_insert_ne.
    assert (module_entries (<[mp := ModulesObj m1]> h) (modules c) = Some m1) as Hm1.
    { rewrite Hmod. simpl. now rewrite lookup_insert_eq. }
    rewrite (Finish_constructed E _ _ _ _ _ _ false Ha1 Hm1 Hap Hcfg).
    replace (first_missing m1 (BeginBlockers cfg)) with (@None string); [done|].
    symmetry. apply first_missing_None. intros k Hk.
    destruct (Hothers k Hk) as [->|[w Hw']].
    + unfold m1. rewrite lookup_insert_eq. by eexists.
    + unfold m1. destruct (decide (Name x = k)) as [->|Hd].
      * rewrite lookup_insert_eq. by eexists.
      * rewrite lookup_insert_ne by done. by eexists.
Qed.

End MoreOnFinish.

(** ** More on [Create] *)

Lemma deref_Ret_inv {A} (sel : object -> option A) p h x h' :
  deref sel p h = (Ret x, h') ->
  ∃ q o, p = Some q ∧ h !! q = Some o ∧ sel o = Some x ∧ h' = h.
Proof.
  unfold deref. destruct p as [q|]; [|discriminate].
  destruct (h !! q) as [o|] eqn:Hq; [|discriminate].
  destruct (sel o) as [y|] eqn:Hs; [|discriminate].
  intros [= <- <-]. exists q, o. done.
Qed.

Lemma engine_call_inv p method h r h' :
  engine_call p method h = (r, h') ->
  (∃ q, r = Panic q ∧ h' = h) ∨
  (∃ b b', r = Ret tt ∧ h !! p = Some (BaseAppObj b) ∧ method b = Ret b' ∧
           h' = <[p := BaseAppObj b']> h).
Proof.
  unfold engine_call. intros Hb.
  apply bind_inv in Hb as [(b & h1 & Hd & Hb)|(q & Hd & ->)].
  - apply deref_Ret_inv in Hd as (q & o & [= <-] & Hq & Hsel & ->).
    destruct o; try discriminate. injection Hsel as ->.
    destruct (method b) as [b'|q'] eqn:Hm.
    + right. unfold store in Hb. injection Hb as <- <-. eauto 10.
    + left. unfold panic in Hb. injection Hb as <- <-. eauto.
  - left. apply deref_heap in Hd. eauto.
Qed.

Lemma engine_call_keeps (h : heap) p method hx r hy :
  h !! p = None ->
  (∀ q o, h !! q = Some o -> hx !! q = Some o) ->
  engine_call p method hx = (r, hy) ->
  ∀ q o, h !! q = Some o -> hy !! q = Some o.
Proof.
  intros Hp Hkeep Hcall q o Hq.
  apply engine_call_inv in Hcall as [(? & _ & ->)|(b & b' & _ & _ & _ & ->)];
    [now apply Hkeep|].
  rewrite lookup_insert_ne; [now apply Hkeep|]. intros ->. congruence.
Qed.

Section MoreOnCreate.

Context (E : Collaborators).

Lemma interBlockCache_returns appOpts h :
  ∃ cache h0, interBlockCache E appOpts h = (Ret cache, h0).
Proof.
  unfold interBlockCache.
  destruct (Create_cache_stage (ToBool E (Get appOpts FlagInterBlockCache)) h)
    as (cache & h0 & Hstage & _). eauto.
Qed.

Lemma baseapp_option_inv o h r h' :
  baseapp_option E o h = (r, h') -> h' = h.
Proof.
  unfold baseapp_option, panic, ret.
  destruct (option_panic E o); now intros [= _ <-].
Qed.

(** X11: [Create] assigns [a.app] as its last step.  Provided the
    engine constructor keeps to its own (it writes to no object that was
    there, and the engine it returns is a new object), a call that
    panics, for whatever reason, has written to no object that existed
    before it: the creator, with its engine handle, its registry and its
    builder are as they were. *)
Theorem Create_panic_writes_nothing a logger db traceStore appOpts baseAppOptions p h h' :
  constructor_keeps_to_itself E ->
  Create E a logger db traceStore appOpts baseAppOptions h = (Panic p, h') ->
  ∀ q o, h !! q = Some o -> h' !! q = Some o.
Proof.
  intros HK Hrun. unfold Create in Hrun.
  destruct (interBlockCache_returns appOpts h) as (cache & h0 & Hcache).
  rewrite (bind_Ret _ _ _ _ _ Hcache) in Hrun.
  destruct (interBlockCache_extends _ _ _ _ _ Hcache) as [Hsub _].
  destruct (GetPruningOptionsFromFlags E appOpts) as [pr [e|]];
    [unfold panic in Hrun; injection Hrun as _ <-; exact Hsub|].
  destruct (NewDB E _ _ _) as [d [e|]];
    [unfold panic in Hrun; injection Hrun as _ <-; exact Hsub|].
  destruct (NewStore E _ _) as [s [e|]];
    [unfold panic in Hrun; injection Hrun as _ <-; exact Hsub|].
  do 9 (apply bind_inv in Hrun as [(? & ? & Ho & Hrun)|(? & Ho & _)];
        apply baseapp_option_inv in Ho as ->; [|exact Hsub]).
  apply bind_inv in Hrun as [(c & hx & Hd & Hrun)|(? & Hd & _)];
    [|apply deref_heap in Hd as ->; exact Hsub].
  apply deref_Ret_inv in Hd as (a0 & oa & -> & Hoa & Hsel & ->).
  destruct (config c) as [cfg|]; simpl deref_config in Hrun;
    [|unfold bind, panic in Hrun; injection Hrun as _ <-; exact Hsub].
  rewrite (bind_Ret (ret cfg) _ h0 cfg h0 eq_refl) in Hrun.
  apply bind_inv in Hrun as [(pb & h1 & Hn & Hrun)|(? & Hn & _)].
  2: { destruct (HK _ _ _ _ _ _ _ Hn) as [Hk _]. intros q o Hq. now apply Hk, Hsub. }
  destruct (HK _ _ _ _ _ _ _ Hn) as [Hk Hfresh]. specialize (Hfresh pb eq_refl).
  assert (∀ q o, h !! q = Some o -> h1 !! q = Some o) as Hsub1
    by (intros q o Hq; now apply Hk, Hsub).
  assert (h !! pb = None) as Hpb.
  { destruct (h !! pb) as [o|] eqn:Ho; [|done].
    rewrite (Hsub _ _ Ho) in Hfresh. discriminate. }
  apply bind_inv in Hrun as [([] & h2 & Hc1 & Hrun)|(? & Hc1 & _)];
    pose proof (engine_call_keeps _ _ _ _ _ _ Hpb Hsub1 Hc1) as Hsub2; [|exact Hsub2].
  apply bind_inv in Hrun as [([] & h3 & Hc2 & Hrun)|(? & Hc2 & _)];
    pose proof (engine_call_keeps _ _ _ _ _ _ Hpb Hsub2 Hc2) as Hsub3; [|exact Hsub3].
  apply bind_inv in Hrun as [(c' & hx & Hd & Hrun)|(? & Hd & _)];
    [|apply deref_heap in Hd as ->; exact Hsub3].
  apply deref_heap in Hd as ->.
  apply bind_inv in Hrun as [(bd & hx & Hd & Hrun)|(? & Hd & _)];
    [|apply deref_heap in Hd as ->; exact Hsub3].
  apply deref_heap in Hd as ->.
  apply bind_inv in Hrun as [([] & h4 & Hc3 & Hrun)|(? & Hc3 & _)];
    pose proof (engine_call_keeps _ _ _ _ _ _ Hpb Hsub3 Hc3) as Hsub4; [|exact Hsub4].
  apply bind_inv in Hrun as [(pa & h5 & Hal & Hrun)|(? & Hal & _)]; [|discriminate].
  unfold alloc in Hal. injection Hal as <- <-.
  assert (∀ q o, h !! q = Some o ->
                 <[fresh (dom h4) := AppObj {| BaseApp := Some pb |}]> h4 !! q = Some o)
    as Hsub5.
  { intros q o Hq. rewrite lookup_insert_ne; [now apply Hsub4|].
    intros <-. pose proof (is_fresh (dom h4)) as Hf.
    apply Hf. apply elem_of_dom. rewrite (Hsub4 _ _ Hq). by eexists. }
  unfold assign_app in Hrun.
  apply bind_inv in Hrun as [([] & h6 & Has & Hrun)|(? & Has & _)].
  - apply bind_inv in Has as [(c'' & hx & Hd & Has)|(? & Hd & [=])].
    apply deref_heap in Hd as ->. unfold store in Has. injection Has as <-.
    erewrite bind_Ret in Hrun; [|apply deref_creator, lookup_insert_eq].
    discriminate.
  - apply bind_inv in Has as [(c'' & hx & Hd & Has)|(? & Hd & _)].
    + unfold store in Has. discriminate.
    + apply deref_heap in Hd as ->. exact Hsub5.
Qed.

(** X12: a creator without a configuration or without a builder cannot
    construct an engine.  With the three construction steps succeeding
    and no option constructor panicking, [Create] on a nil configuration
    panics on the nil pointer before the engine constructor is called;
    on a nil builder it panics on the nil pointer once the engine has
    been built and its first two setters have returned.  Either way the
    creator is as it was, without a new handle. *)
Theorem Create_needs_config_and_builder a c pr d s logger db traceStore appOpts
    baseAppOptions h :
  let snapshotDir :=
    filepath_Join E [ToString E (Get appOpts FlagHome); "data"; "snapshots"] in
  h !! a = Some (CreatorObj c) ->
  GetPruningOptionsFromFlags E appOpts = (pr, None) ->
  NewDB E "metadata" (GetAppDBBackend E appOpts) snapshotDir = (d, None) ->
  NewStore E d snapshotDir = (s, None) ->
  (∀ cache o, o ∈ derived_options E appOpts pr s cache -> option_panic E o = None) ->
  (config c = None ->
   ∃ h', Create E (Some a) logger db traceStore appOpts baseAppOptions h
           = (Panic NilDereference, h') ∧
         h' !! a = Some (CreatorObj c)) ∧
  (∀ cfg cache h0 bApp st h1 st1 st2,
     config c = Some cfg ->
     builder c = None ->
     interBlockCache E appOpts h = (Ret cache, h0) ->
     builds_engine E (AppName cfg) logger db
       (baseAppOptions ++ derived_options E appOpts pr s cache) h0 bApp st h1 ->
     SetCommitMultiStoreTracer E st traceStore = Ret st1 ->
     SetVersion E st1 (version_Version E) = Ret st2 ->
     ∃ h', Create E (Some a) logger db traceStore appOpts baseAppOptions h
             = (Panic NilDereference, h') ∧
           h' !! a = Some (CreatorObj c)).
Proof.
  intros snapshotDir Ha Hpr Hdb Hst Hopts. split.
  - intros Hcfg.
    destruct (interBlockCache_returns appOpts h) as (cache & h0 & Hcache).
    destruct (interBlockCache_extends _ _ _ _ _ Hcache) as [Hsub _].
    exists h0. split; [|now apply Hsub].
    unfold Create. rewrite (bind_Ret _ _ _ _ _ Hcache).
    rewrite Hpr. fold snapshotDir. rewrite Hdb, Hst.
    do 9 (erewrite bind_Ret;
            [|apply baseapp_option_ret, (Hopts cache); unfold derived_options;
              repeat constructor]).
    rewrite (bind_Ret _ _ _ _ _ (deref_creator _ _ _ (Hsub _ _ Ha))).
    now rewrite Hcfg.
  - intros cfg cache h0 bApp st h1 st1 st2 Hcfg Hb Hcache Hbuilds Htracer Hversion.
    pose proof (Create_run E a c cfg pr d s logger db traceStore appOpts baseAppOptions
                  h cache h0 bApp st h1 st1 st2
                  Ha Hcfg Hpr Hdb Hst (Hopts cache) Hcache Hbuilds Htracer Hversion)
      as Hrun.
    rewrite Hb in Hrun. simpl in Hrun.
    destruct Hbuilds as (_ & _ & Hst0 & Hframe).
    destruct (interBlockCache_extends _ _ _ _ _ Hcache) as [Hsub _].
    eexists. split; [exact Hrun|].
    rewrite lookup_insert_ne; [now apply Hframe, Hsub|].
    intros ->. rewrite (Hframe _ _ (Hsub _ _ Ha)) in Hst0. discriminate.
Qed.

Lemma interBlockCache_exact appOpts h cache h0 :
  interBlockCache E appOpts h = (Ret cache, h0) ->
  if ToBool E (Get appOpts FlagInterBlockCache)
  then ∃ pc, cache = Some pc ∧ h !! pc = None ∧ h0 = <[pc := CacheManagerObj]> h
  else cache = None ∧ h0 = h.
Proof.
  unfold interBlockCache.
  destruct (ToBool E (Get appOpts FlagInterBlockCache)).
  - destruct (alloc_fresh h CacheManagerObj) as (pc & Hpc & Hnone).
    rewrite (bind_Ret _ _ _ _ _ Hpc). intros [= <- <-]. eauto.
  - now intros [= <- <-].
Qed.

(** X13: what [Create] asks of the engine.  It gives the engine
    constructor the configuration's [AppName], the logger, the database
    and the caller's options followed by the nine derived options in
    source order, the inter-block cache among them being a cache manager
    made for this call when the flag coerces to true and nil otherwise;
    on the engine it gets back it calls [SetCommitMultiStoreTracer] with
    the trace sink, [SetVersion] with the build version and
    [SetInterfaceRegistry] with the builder's registry, in this order.
    The application it returns wraps that engine in the state the last
    call left. *)
Theorem Create_engine_configuration a c cfg bp bd pr d s logger db traceStore
    appOpts baseAppOptions h cache h0 bApp st h1 st1 st2 st3 :
  let snapshotDir :=
    filepath_Join E [ToString E (Get appOpts FlagHome); "data"; "snapshots"] in
  h !! a = Some (CreatorObj c) ->
  config c = Some cfg ->
  builder c = Some bp ->
  h !! bp = Some (BuilderObj bd) ->
  GetPruningOptionsFromFlags E appOpts = (pr, None) ->
  NewDB E "metadata" (GetAppDBBackend E appOpts) snapshotDir = (d, None) ->
  NewStore E d snapshotDir = (s, None) ->
  (∀ o, o ∈ derived_options E appOpts pr s cache -> option_panic E o = None) ->
  interBlockCache E appOpts h = (Ret cache, h0) ->
  builds_engine E (AppName cfg) logger db
    (baseAppOptions ++
     [ SetPruning pr;
       SetMinGasPrices (ToString E (Get appOpts FlagMinGasPrices));
       SetHaltHeight (ToUint64 E (Get appOpts FlagHaltHeight));
       SetHaltTime (ToUint64 E (Get appOpts FlagHaltTime));
       SetMinRetainBlocks (ToUint64 E (Get appOpts FlagMinRetainBlocks));
       SetInterBlockCache cache;
       SetTrace (ToBool E (Get appOpts FlagTrace));
       SetIndexEvents (ToStringSlice E (Get appOpts FlagIndexEvents));
       SetSnapshot s
         (NewSnapshotOptions
            (ToUint64 E (Get appOpts FlagStateSyncSnapshotInterval))
            (ToUint32 E (Get appOpts FlagStateSyncSnapshotKeepRecent))) ])
    h0 bApp st h1 ->
  SetCommitMultiStoreTracer E st traceStore = Ret st1 ->
  SetVersion E st1 (version_Version E) = Ret st2 ->
  SetInterfaceRegistry E st2 (interfaceRegistry bd) = Ret st3 ->
  ∃ ap h',
    Create E (Some a) logger db traceStore appOpts baseAppOptions h
      = (Ret (Some ap), h') ∧
    h' !! ap = Some (AppObj {| BaseApp := Some bApp |}) ∧
    h' !! bApp = Some (BaseAppObj st3) ∧
    (if ToBool E (Get appOpts FlagInterBlockCache)
     then ∃ pc, cache = Some pc ∧ h !! pc = None ∧ h' !! pc = Some CacheManagerObj
     else cache = None).
Proof.
  intros snapshotDir Ha Hcfg Hb Hbd Hpr Hdb Hst Hopts Hcache Hbuilds
         Htracer Hversion Hregistry.
  pose proof (Create_run E a c cfg pr d s logger db traceStore appOpts baseAppOptions
                h cache h0 bApp st h1 st1 st2
                Ha Hcfg Hpr Hdb Hst Hopts Hcache Hbuilds Htracer Hversion) as Hrun.
  destruct Hbuilds as (_ & Hfresh & Hst0 & Hframe).
  destruct (interBlockCache_extends _ _ _ _ _ Hcache) as [Hsub _].
  rewrite Hb in Hrun. simpl in Hrun.
  rewrite (Hframe _ _ (Hsub _ _ Hbd)) in Hrun. simpl in Hrun.
  destruct (Hrun st3 Hregistry) as (pa & Hpa1 & Hpab & Hpaa & Hcreate).
  assert (bApp ≠ a) as Hba.
  { intros ->. rewrite (Hframe _ _ (Hsub _ _ Ha)) in Hst0. discriminate. }
  exists pa. eexists. split; [exact Hcreate|]. split_and!.
  - rewrite lookup_insert_ne by done. apply lookup_insert_eq.
  - rewrite !lookup_insert_ne by done. apply lookup_insert_eq.
  - pose proof (interBlockCache_exact _ _ _ _ Hcache) as Hexact.
    destruct (ToBool E (Get appOpts FlagInterBlockCache)); [|now destruct Hexact].
    destruct Hexact as (pc & -> & Hpc & ->). exists pc. split_and!; try done.
    assert (h1 !! pc = Some CacheManagerObj) as Hpc1
      by (apply Hframe, lookup_insert_eq).
    rewrite !lookup_insert_ne; [exact Hpc1|..]; intros ->; congruence.
Qed.

(** X18: [Create] has no other way to return than with a handle.
    Whenever it returns, the value is a non-nil handle, the creator's
    [app] field holds that very handle, the handle leads to an
    application object that wraps an engine object, and none of the
    pruning parse, the database open and the snapshot-store open had
    returned an error. *)
Theorem Create_returns_stored_handle a logger db traceStore appOpts baseAppOptions
    r h h' :
  Create E a logger db traceStore appOpts baseAppOptions h = (Ret r, h') ->
  ∃ a0 c ap bApp st,
    a = Some a0 ∧ r = Some ap ∧
    h' !! a0 = Some (CreatorObj c) ∧ app c = Some ap ∧
    h' !! ap = Some (AppObj {| BaseApp := Some bApp |}) ∧
    h' !! bApp = Some (BaseAppObj st) ∧
    snd (GetPruningOptionsFromFlags E appOpts) = None ∧
    snd (NewDB E "metadata" (GetAppDBBackend E appOpts)
           (filepath_Join E [ToString E (Get appOpts FlagHome); "data"; "snapshots"]))
    = None ∧
    snd (NewStore E
           (fst (NewDB E "metadata" (GetAppDBBackend E appOpts)
                   (filepath_Join E [ToString E (Get appOpts FlagHome); "data";
                                     "snapshots"])))
           (filepath_Join E [ToString E (Get appOpts FlagHome); "data"; "snapshots"]))
    = None.
Proof.
  intros Hrun. unfold Create in Hrun.
  destruct (interBlockCache_returns appOpts h) as (cache & h0 & Hcache).
  rewrite (bind_Ret _ _ _ _ _ Hcache) in Hrun.
  destruct (GetPruningOptionsFromFlags E appOpts) as [pr [e|]]; [discriminate|].
  destruct (NewDB E _ _ _) as [d [e|]]; [discriminate|].
  destruct (NewStore E _ _) as [s [e|]]; [discriminate|].
  do 9 (apply bind_inv in Hrun as [(? & ? & Ho & Hrun)|(? & _ & [=])];
        apply baseapp_option_inv in Ho as ->).
  apply bind_inv in Hrun as [(c & hx & Hd & Hrun)|(? & _ & [=])].
  apply deref_Ret_inv in Hd as (a0 & oa & -> & Hoa & Hsel & ->).
  destruct (config c) as [cfg|]; simpl deref_config in Hrun; [|discriminate].
  rewrite (bind_Ret (ret cfg) _ h0 cfg h0 eq_refl) in Hrun.
  apply bind_inv in Hrun as [(pb & h1 & Hn & Hrun)|(? & _ & [=])].
  apply bind_inv in Hrun as [([] & h2 & Hc1 & Hrun)|(? & _ & [=])].
  apply bind_inv in Hrun as [([] & h3 & Hc2 & Hrun)|(? & _ & [=])].
  apply bind_inv in Hrun as [(c' & hx & Hd & Hrun)|(? & _ & [=])].
  apply deref_heap in Hd as ->.
  apply bind_inv in Hrun as [(bd & hx & Hd & Hrun)|(? & _ & [=])].
  apply deref_heap in Hd as ->.
  apply bind_inv in Hrun as [([] & h4 & Hc3 & Hrun)|(? & _ & [=])].
  apply engine_call_inv in Hc3 as [(? & [=] & _)|(b & b' & _ & _ & _ & ->)].
  apply bind_inv in Hrun as [(pa & h5 & Hal & Hrun)|(? & _ & [=])].
  unfold alloc in Hal. injection Hal as <- <-.
  set (h4 := <[pb := BaseAppObj b']> h3) in *.
  set (pa := fresh (dom h4)) in *.
  assert (h4 !! pa = None) as Hpa by apply not_elem_of_dom, is_fresh.
  assert (pa ≠ pb) as Hpab.
  { intros Heq. rewrite Heq in Hpa. unfold h4 in Hpa.
    rewrite lookup_insert_eq in Hpa. discriminate. }
  unfold assign_app in Hrun.
  apply bind_inv in Hrun as [([] & h6 & Has & Hrun)|(? & _ & [=])].
  apply bind_inv in Has as [(c'' & hx & Hd & Has)|(? & _ & [=])].
  apply deref_Ret_inv in Hd as (a1 & oc & [= <-] & Hoc & Hselc & ->).
  unfold store in Has. injection Has as <-.
  erewrite bind_Ret in Hrun; [|apply deref_creator, lookup_insert_eq].
  unfold ret in Hrun. simpl in Hrun. injection Hrun as <- <-.
  assert (a0 ≠ pa) as Hapa.
  { intros ->. rewrite lookup_insert_eq in Hoc. injection Hoc as <-. discriminate. }
  assert (a0 ≠ pb) as Hapb.
  { intros ->. rewrite lookup_insert_ne in Hoc by done. unfold h4 in Hoc.
    rewrite lookup_insert_eq in Hoc. injection Hoc as <-. discriminate. }
  eexists a0, _, pa, pb, b'. split_and!; try done.
  - apply lookup_insert_eq.
  - reflexivity.
  - rewrite lookup_insert_ne by done. apply lookup_insert_eq.
  - rewrite !lookup_insert_ne by done. unfold h4. apply lookup_insert_eq.
Qed.

End MoreOnCreate.

(** ** More on the builder and its providers *)

(** X14: a provider handed a nil builder panics on the nil pointer once
    it has made the key: the key object exists, but no builder lists
    it. *)
Theorem provider_nil_builder r h :
  ∃ k, h !! k = None ∧
       serve None r h
       = (Panic NilDereference,
          <[k := StoreKeyObj (request_kind r) (ModuleKey_Name (request_key r))]> h).
Proof.
  destruct r as [key|key|key]; simpl request_kind; simpl request_key; simpl serve;
    unfold provideKVStoreKey, provideTransientStoreKey, provideMemoryStoreKey,
           NewStoreKey;
    match goal with |- context [alloc ?o] =>
      destruct (alloc_fresh h o) as (k & Hk & Hnone) end;
    exists k; (split; [exact Hnone|]);
    rewrite (bind_Ret _ _ _ _ _ Hk); reflexivity.
Qed.

(** X15: provider requests against one builder write to that builder and
    to nothing else that existed: every other object, a second builder
    and its list included, is as before, and the keys the builder already
    listed stay at the front of its list in their order. *)
Theorem providers_touch_only_their_builder h bp bd rs keys h' :
  h !! bp = Some (BuilderObj bd) ->
  serve_all (Some bp) rs h = (Ret keys, h') ->
  (∀ q o, q ≠ bp -> h !! q = Some o -> h' !! q = Some o) ∧
  ∃ bd', h' !! bp = Some (BuilderObj bd') ∧
         take (length (storeKeys bd)) (storeKeys bd') = storeKeys bd.
Proof.
  intros Hb Hrun.
  destruct (serve_all_result h bp bd rs Hb)
    as (keys0 & bd' & h0 & Hres & Hb' & Hkeys & _ & _ & _ & _ & _ & Hold & _).
  rewrite Hrun in Hres. injection Hres as <- <-.
  split; [exact Hold|]. exists bd'. split; [exact Hb'|].
  rewrite Hkeys. now rewrite take_app_length.
Qed.

Lemma provideBuilder_objects h :
  ∃ out bp h',
    provideBuilder h = (Ret (out, None), h') ∧
    Builder out = Some bp ∧
    h !! InterfaceRegistry out = None ∧ h !! Codec out = None ∧
    h !! LegacyAmino out = None ∧ h !! bp = None ∧
    NoDup [InterfaceRegistry out; Codec out; LegacyAmino out; bp] ∧
    h' !! InterfaceRegistry out = Some InterfaceRegistryObj ∧
    h' !! Codec out = Some (ProtoCodecObj (InterfaceRegistry out)) ∧
    h' !! LegacyAmino out = Some LegacyAminoObj ∧
    h' !! bp = Some (BuilderObj {| storeKeys := [];
                                   interfaceRegistry := InterfaceRegistry out;
                                   cdc := Codec out;
                                   amino := LegacyAmino out |}) ∧
    (∀ q o, h !! q = Some o -> h' !! q = Some o).
Proof.
  unfold provideBuilder.
  destruct (alloc_fresh h InterfaceRegistryObj) as (ir & Hir & Hir0).
  rewrite (bind_Ret _ _ _ _ _ Hir).
  destruct (alloc_fresh (<[ir := InterfaceRegistryObj]> h) (ProtoCodecObj ir))
    as (pc & Hpc & Hpc_new).
  rewrite (bind_Ret _ _ _ _ _ Hpc).
  destruct (alloc_fresh (<[pc := ProtoCodecObj ir]> (<[ir := InterfaceRegistryObj]> h))
                        LegacyAminoObj) as (am & Ham & Ham_new).
  rewrite (bind_Ret _ _ _ _ _ Ham).
  destruct (alloc_fresh (<[am := LegacyAminoObj]>
                           (<[pc := ProtoCodecObj ir]> (<[ir := InterfaceRegistryObj]> h)))
                        (BuilderObj {| storeKeys := []; interfaceRegistry := ir;
                                       cdc := pc; amino := am |}))
    as (bp & Hbp & Hbp_new).
  rewrite (bind_Ret _ _ _ _ _ Hbp).
  apply lookup_insert_None in Hpc_new as [Hpc0 Hn1].
  apply lookup_insert_None in Ham_new as [Ham_new Hn2].
  apply lookup_insert_None in Ham_new as [Ham0 Hn3].
  apply lookup_insert_None in Hbp_new as [Hbp_new Hn4].
  apply lookup_insert_None in Hbp_new as [Hbp_new Hn5].
  apply lookup_insert_None in Hbp_new as [Hbp0 Hn6].
  exists {| InterfaceRegistry := ir; Codec := pc; LegacyAmino := am; Builder := Some bp |},
         bp. eexists. simpl. split; [reflexivity|]. split_and!; try done.
  - repeat (apply NoDup_cons; split;
      [intros Hin; repeat (apply elem_of_cons in Hin as [Hin|Hin]; [congruence|]);
       now apply elem_of_nil in Hin|]).
    apply NoDup_nil_2.
  - rewrite !lookup_insert_ne by done. apply lookup_insert_eq.
  - rewrite !lookup_insert_ne by done. apply lookup_insert_eq.
  - rewrite !lookup_insert_ne by done. apply lookup_insert_eq.
  - apply lookup_insert_eq.
  - intros q o Hq.
    rewrite !lookup_insert_ne; [done|..]; intros ->; congruence.
Qed.

(** X16: [provideBuilder] does not keep a singleton of its own.  Called
    a second time it creates a second registry, codec, amino codec and
    builder, all different from the first ones, the second codec built
    over the second registry; the first builder and its handles are left
    as they were. *)
Theorem provideBuilder_twice h :
  ∃ out1 bp1 h1 out2 bp2 h2,
    provideBuilder h = (Ret (out1, None), h1) ∧
    provideBuilder h1 = (Ret (out2, None), h2) ∧
    Builder out1 = Some bp1 ∧ Builder out2 = Some bp2 ∧
    NoDup [InterfaceRegistry out1; Codec out1; LegacyAmino out1; bp1;
           InterfaceRegistry out2; Codec out2; LegacyAmino out2; bp2] ∧
    h2 !! Codec out1 = Some (ProtoCodecObj (InterfaceRegistry out1)) ∧
    h2 !! Codec out2 = Some (ProtoCodecObj (InterfaceRegistry out2)) ∧
    h2 !! bp1 = Some (BuilderObj {| storeKeys := [];
                                    interfaceRegistry := InterfaceRegistry out1;
                                    cdc := Codec out1;
                                    amino := LegacyAmino out1 |}) ∧
    h2 !! bp2 = Some (BuilderObj {| storeKeys := [];
                                    interfaceRegistry := InterfaceRegistry out2;
                                    cdc := Codec out2;
                                    amino := LegacyAmino out2 |}).
Proof.
  destruct (provideBuilder_objects h)
    as (out1 & bp1 & h1 & Hrun1 & Hb1 & _ & _ & _ & _ & Hnd1 & Hir1 & Hpc1 & Ham1 & Hbp1 & _).
  destruct (provideBuilder_objects h1)
    as (out2 & bp2 & h2 & Hrun2 & Hb2 & Hir0 & Hpc0 & Ham0 & Hbp0 & Hnd2 & _ & Hpc2 & _ & Hbp2 & Hold).
  exists out1, bp1, h1, out2, bp2, h2. split_and!; try done.
  - change [InterfaceRegistry out1; Codec out1; LegacyAmino out1; bp1;
            InterfaceRegistry out2; Codec out2; LegacyAmino out2; bp2]
      with ([InterfaceRegistry out1; Codec out1; LegacyAmino out1; bp1] ++
            [InterfaceRegistry out2; Codec out2; LegacyAmino out2; bp2]).
    apply NoDup_app. split; [exact Hnd1|]. split; [|exact Hnd2].
    intros q Hq1 Hq2.
    assert (is_Some (h1 !! q)) as [o Ho].
    { repeat (apply elem_of_cons in Hq1 as [->|Hq1]; [by eexists|]).
      now apply elem_of_nil in Hq1. }
    repeat (apply elem_of_cons in Hq2 as [->|Hq2]; [congruence|]).
    now apply elem_of_nil in Hq2.
  - now apply Hold.
  - now apply Hold.
Qed.

(** ** The whole assembly *)

Lemma register_all_is_Some m ms k :
  is_Some (register_all m ms !! k) <-> is_Some (m !! k) ∨ k ∈ Name <$> ms.
Proof.
  revert m. induction ms as [|x ms IH]; intros m.
  - simpl. split; [now left|]. intros [H|H]; [done|]. now apply elem_of_nil in H.
  - change (register_all m (x :: ms))
      with (register_all (<[Name x := {| wrapped := x |}]> m) ms).
    rewrite IH, fmap_cons, elem_of_cons.
    destruct (decide (Name x = k)) as [->|Hne].
    + rewrite lookup_insert_eq. split; [intros _; right; now left|].
      intros _. left. by eexists.
    + rewrite lookup_insert_ne by done. split.
      * intros [H|H]; [now left|right; now right].
      * intros [H|[H|H]]; [now left|congruence|now right].
Qed.

Section WholeAssembly.

Context (E : Collaborators).

(** X17: the two phases together.  Wire a builder and a creator over an
    empty module map, register modules with pairwise distinct names,
    construct the engine and call [Finish(false)].  When the three
    construction steps succeed, no option constructor panics and the
    engine can be built and set up, registration and construction
    succeed, and [Finish] returns nil exactly when every begin blocker of
    the configuration is the name of a registered module; otherwise its
    error names a begin blocker that no module has. *)
Theorem assembly_end_to_end cfg ms mp logger db traceStore appOpts baseAppOptions
    pr d s h :
  let snapshotDir :=
    filepath_Join E [ToString E (Get appOpts FlagHome); "data"; "snapshots"] in
  h !! mp = Some (ModulesObj ∅) ->
  NoDup (Name <$> ms) ->
  GetPruningOptionsFromFlags E appOpts = (pr, None) ->
  NewDB E "metadata" (GetAppDBBackend E appOpts) snapshotDir = (d, None) ->
  NewStore E d snapshotDir = (s, None) ->
  (∀ cache o, o ∈ derived_options E appOpts pr s cache -> option_panic E o = None) ->
  engine_available E cfg logger db traceStore appOpts baseAppOptions pr s ->
  ∃ ap f h',
    (let* out := provideBuilder in
     let* a := provideApp (Some cfg) (Builder (fst out)) (Some mp) in
     let* e := RegisterModules a ms in
     let* ap := Create E a logger db traceStore appOpts baseAppOptions in
     let* f := Finish E a false in
     ret (e, ap, f)) h = (Ret (None, Some ap, f), h') ∧
    (f = None <-> ∀ k, k ∈ BeginBlockers cfg -> k ∈ Name <$> ms) ∧
    (∀ err, f = Some err ->
       ∃ k, err = UnknownModuleError k ∧ k ∈ BeginBlockers cfg ∧ k ∉ Name <$> ms).
Proof.
  intros snapshotDir Hmp Hnd Hpr Hdb Hst Hopts Havail.
  destruct (provideBuilder_objects h)
    as (out & bp & h1 & Hrun1 & Hb & _ & _ & _ & Hbp0 & _ & _ & _ & _ & Hbp1 & Hold1).
  rewrite (bind_Ret _ _ _ _ _ Hrun1). simpl fst. rewrite Hb.
  pose proof (Hold1 _ _ Hmp) as Hmp1.
  assert (bp ≠ mp) as Hbm by (intros ->; congruence).
  unfold provideApp.
  set (c0 := {| builder := Some bp; modules := Some mp; app := None;
                config := Some cfg |}).
  destruct (alloc_fresh h1 (CreatorObj c0)) as (a & Ha & Ha_new).
  rewrite (bind_Ret _ _ _ _ _ (bind_Ret _ _ _ _ _ Ha)).
  assert (a ≠ mp) as Ham by (intros ->; congruence).
  assert (a ≠ bp) as Hab by (intros ->; congruence).
  set (h2 := <[a := CreatorObj c0]> h1).
  assert (holds_registry h2 a mp ∅) as Hw.
  { exists c0. unfold h2. rewrite lookup_insert_eq, lookup_insert_ne by done. done. }
  set (m := register_all ∅ ms).
  assert (RegisterModules (Some a) ms h2 = (Ret None, <[mp := ModulesObj m]> h2)) as Hreg.
  { rewrite <- (app_nil_r ms) at 1.
    rewrite (RegisterModules_prefix _ _ _ _ _ [] Hw Hnd); [reflexivity|].
    intros x _. apply lookup_empty. }
  unfold ret at 1. rewrite (bind_Ret _ _ _ _ _ Hreg).
  set (h3 := <[mp := ModulesObj m]> h2).
  assert (h3 !! a = Some (CreatorObj c0)) as Ha3.
  { unfold h3, h2. rewrite lookup_insert_ne by done. apply lookup_insert_eq. }
  assert (h3 !! bp = Some (BuilderObj {| storeKeys := [];
                                         interfaceRegistry := InterfaceRegistry out;
                                         cdc := Codec out;
                                         amino := LegacyAmino out |})) as Hbp3.
  { unfold h3, h2. now rewrite !lookup_insert_ne by done. }
  assert (h3 !! mp = Some (ModulesObj m)) as Hmp3 by apply lookup_insert_eq.
  destruct (interBlockCache_returns E appOpts h3) as (cache & h0 & Hcache).
  destruct (interBlockCache_extends _ _ _ _ _ Hcache) as [Hsub _].
  destruct (Havail cache h0)
    as (bApp & st & h4 & st1 & st2 & Hbuilds & Htracer & Hversion & Hregistry).
  pose proof (Create_run E a c0 cfg pr d s logger db traceStore appOpts baseAppOptions
                h3 cache h0 bApp st h4 st1 st2
                Ha3 eq_refl Hpr Hdb Hst (Hopts cache) Hcache Hbuilds Htracer Hversion)
    as Hcreate.
  destruct Hbuilds as (_ & _ & Hst0 & Hframe).
  simpl in Hcreate. rewrite (Hframe _ _ (Hsub _ _ Hbp3)) in Hcreate. simpl in Hcreate.
  destruct (Hregistry (InterfaceRegistry out)) as (st3 & Hst3).
  destruct (Hcreate st3 Hst3) as (pa & Hpa & Hpab & Hpaa & Hrun).
  rewrite (bind_Ret _ _ _ _ _ Hrun).
  match type of Hrun with _ = (_, ?hh) => set (h5 := hh) end.
  assert (h5 !! a = Some (CreatorObj {| builder := Some bp; modules := Some mp;
                                        app := Some pa; config := Some cfg |})) as Ha5
    by apply lookup_insert_eq.
  pose proof (Hframe _ _ (Hsub _ _ Hmp3)) as Hmp4.
  assert (h5 !! mp = Some (ModulesObj m)) as Hmp5.
  { unfold h5. rewrite !lookup_insert_ne; [exact Hmp4|..]; intros ->; congruence. }
  assert (module_entries h5 (Some mp) = Some m) as Hm5.
  { simpl. now rewrite Hmp5. }
  pose proof (Finish_constructed E _ _ _ _ pa cfg false Ha5 Hm5 eq_refl eq_refl) as HF.
  assert (∀ k, is_Some (m !! k) <-> k ∈ Name <$> ms) as Hdom.
  { intros k. unfold m. rewrite register_all_is_Some, lookup_empty.
    split; [intros [[? ?]|?]; [discriminate|done]|now right]. }
  destruct (first_missing m (BeginBlockers cfg)) as [n|] eqn:Hfm;
    rewrite (bind_Ret _ _ _ _ _ HF).
  - exists pa, (Some (UnknownModuleError n)). eexists. split; [reflexivity|].
    destruct (first_missing_Some _ _ _ Hfm) as (pre & post & Heq & Hn & _).
    assert (n ∈ BeginBlockers cfg) as Hin.
    { rewrite Heq. apply elem_of_app. right. left. }
    assert (n ∉ Name <$> ms) as Hout'.
    { intros Hn'. apply Hdom in Hn' as [w Hw']. congruence. }
    split.
    + split; [discriminate|]. intros Hall. destruct (Hout' (Hall n Hin)).
    + intros err [= <-]. eauto.
  - exists pa, None. eexists. split; [reflexivity|]. split.
    + split; [|done]. intros _ k Hk. apply Hdom.
      exact (proj1 (first_missing_None _ _) Hfm k Hk).
    + discriminate.
Qed.

End WholeAssembly.

(** ** The further properties at concrete inputs *)

Lemma RegisterModules_success_witness :
  ∃ h' m',
    RegisterModules (Some sampleCreator) [bank; auth] (wired []) = (Ret None, h') ∧
    registry h' sampleCreator = Some m' ∧
    m' !! "bank" = Some {| wrapped := bank |} ∧
    size m' = 2.
Proof.
  destruct (RegisterModules_success (wired []) sampleCreator sampleRegistry ∅
              [bank; auth] (wired_holds_registry [])
              ltac:(apply (bool_decide_unpack _); vm_compute; exact I)
              ltac:(intros x _; reflexivity))
    as (h' & m' & Hrun & Hreg & Hin & _ & _ & Hsize).
  exists h', m'. split; [exact Hrun|]. split; [exact Hreg|].
  split; [apply (Hin bank); left|exact Hsize].
Defined.

Lemma RegisterModules_nil_only_when_new_witness :
  NoDup (Name <$> [bank; auth]) ∧
  (∀ x, x ∈ [bank; auth] -> (∅ : gmap string AppModuleWiringWrapper) !! Name x = None) ∧
  registered [] = <[sampleRegistry := ModulesObj (register_all ∅ [bank; auth])]> (wired []).
Proof.
  apply (RegisterModules_nil_only_when_new (wired []) sampleCreator sampleRegistry ∅
           [bank; auth] (registered []) (wired_holds_registry [])).
  vm_compute; reflexivity.
Defined.

Lemma RegisterModules_nil_map_witness :
  RegisterModules (Some 0) [bank; auth] bareCreator = (Panic NilMapAssignment, bareCreator).
Proof.
  apply (RegisterModules_nil_map bareCreator 0
           {| builder := None; modules := None; app := None;
              config := Some (sampleConfig []) |} bank [auth]).
  - vm_compute; reflexivity.
  - reflexivity.
Defined.

Lemma RegisterModules_shared_map_witness :
  ∃ h1, RegisterModules (Some sampleCreator) [bank] twoCreators = (Ret None, h1) ∧
        registry h1 6 ≫= (.!! Name bank) = Some {| wrapped := bank |} ∧
        RegisterModules (Some 6) [bank'] h1
        = (Ret (Some (DuplicateModuleError (Name bank'))), h1).
Proof.
  apply (RegisterModules_shared_map twoCreators sampleCreator 6 sampleRegistry ∅
           bank bank').
  - exists (sampleCreatorObj [] None). repeat split.
  - exists {| builder := None; modules := Some sampleRegistry; app := None;
              config := Some (sampleConfig []) |}. repeat split.
  - reflexivity.
  - reflexivity.
Defined.

Lemma RegisterModules_frame_witness :
  (∀ q, q ≠ sampleRegistry ->
        snd (RegisterModules (Some sampleCreator) [bank; bank'] (wired [])) !! q
        = wired [] !! q) ∧
  snd (RegisterModules (Some sampleCreator) [bank; bank'] (wired [])) !! sampleCreator
  = wired [] !! sampleCreator ∧
  dom (snd (RegisterModules (Some sampleCreator) [bank; bank'] (wired [])))
  = dom (wired []).
Proof.
  apply (RegisterModules_frame (wired []) sampleCreator sampleRegistry ∅ [bank; bank']
           (Ret (Some (DuplicateModuleError "bank")))
           (snd (RegisterModules (Some sampleCreator) [bank; bank'] (wired [])))
           (wired_holds_registry [])).
  vm_compute; reflexivity.
Defined.

Lemma Finish_without_load_writes_nothing_witness :
  created sampleCollaborators ["auth"; "staking"]
  = created sampleCollaborators ["auth"; "staking"].
Proof.
  apply (Finish_without_load_writes_nothing sampleCollaborators (Some sampleCreator)
           (created sampleCollaborators ["auth"; "staking"])
           (Ret (Some (UnknownModuleError "staking")))
           (created sampleCollaborators ["auth"; "staking"])).
  vm_compute; reflexivity.
Defined.

Lemma Finish_without_load_iff_witness :
  (Finish sampleCollaborators (Some sampleCreator) false
          (created sampleCollaborators ["auth"; "bank"])
   = (Ret None, created sampleCollaborators ["auth"; "bank"]) <->
   ∀ k, k ∈ BeginBlockers (sampleConfig ["auth"; "bank"]) ->
        is_Some (register_all ∅ [bank; auth] !! k)) ∧
  (BeginBlockers (sampleConfig ["auth"; "bank"]) = [] ->
   Finish sampleCollaborators (Some sampleCreator) false
          (created sampleCollaborators ["auth"; "bank"])
   = (Ret None, created sampleCollaborators ["auth"; "bank"])).
Proof.
  apply (Finish_without_load_iff sampleCollaborators
           (created sampleCollaborators ["auth"; "bank"]) sampleCreator
           (sampleCreatorObj ["auth"; "bank"] (Some 7))
           (register_all ∅ [bank; auth]) 7 (sampleConfig ["auth"; "bank"])).
  - vm_compute; reflexivity.
  - vm_compute; reflexivity.
  - reflexivity.
  - reflexivity.
Defined.

Lemma Finish_with_load_is_the_load_witness :
  ∃ b, engine_of (created flakyEngine ["auth"; "bank"])
                 (sampleCreatorObj ["auth"; "bank"] (Some 7)) = Some (6, b) ∧
       Finish flakyEngine (Some sampleCreator) true (created flakyEngine ["auth"; "bank"])
       = (fst (LoadLatestVersion flakyEngine b),
          <[6 := BaseAppObj (snd (LoadLatestVersion flakyEngine b))]>
            (created flakyEngine ["auth"; "bank"])).
Proof.
  eexists.
  assert (engine_of (created flakyEngine ["auth"; "bank"])
                    (sampleCreatorObj ["auth"; "bank"] (Some 7)) = Some (6, _)) as He
    by (vm_compute; reflexivity).
  split; [exact He|].
  apply (Finish_with_load_is_the_load flakyEngine
           (created flakyEngine ["auth"; "bank"]) sampleCreator
           (sampleCreatorObj ["auth"; "bank"] (Some 7))
           (register_all ∅ [bank; auth]) (sampleConfig ["auth"; "bank"]) 6 _
           ltac:(vm_compute; reflexivity) ltac:(vm_compute; reflexivity) eq_refl He).
  intros k Hk. simpl in Hk.
  repeat (apply elem_of_cons in Hk as [->|Hk]; [by eexists|]).
  now apply elem_of_nil in Hk.
Defined.

Lemma provideApp_then_Finish_witness :
  ∃ a h1 errs h2,
    provideApp (Some (sampleConfig [])) None (Some 0) emptyRegistry = (Ret (Some a), h1) ∧
    emptyRegistry !! a = None ∧
    RegisterModules_calls (Some a) [[bank]; [bank']] h1 = (Ret errs, h2) ∧
    Finish sampleCollaborators (Some a) true h2 = (Ret (Some NotCreatedError), h2).
Proof.
  apply (provideApp_then_Finish sampleCollaborators (Some (sampleConfig [])) None 0 ∅
           [[bank]; [bank']] true emptyRegistry).
  reflexivity.
Defined.

Lemma RegisterModules_after_Create_witness :
  ∃ h1,
    Finish sampleCollaborators (Some sampleCreator) false
           (created sampleCollaborators ["auth"; "staking"])
    = (Ret (Some (UnknownModuleError (Name staking))),
       created sampleCollaborators ["auth"; "staking"]) ∧
    RegisterModules (Some sampleCreator) [staking]
                    (created sampleCollaborators ["auth"; "staking"]) = (Ret None, h1) ∧
    Finish sampleCollaborators (Some sampleCreator) false h1 = (Ret None, h1).
Proof.
  apply (RegisterModules_after_Create sampleCollaborators
           (created sampleCollaborators ["auth"; "staking"]) sampleCreator
           (sampleCreatorObj ["auth"; "staking"] (Some 7)) sampleRegistry
           (register_all ∅ [bank; auth]) 7 (sampleConfig ["auth"; "staking"]) staking).
  - vm_compute; reflexivity.
  - reflexivity.
  - vm_compute; reflexivity.
  - reflexivity.
  - reflexivity.
  - simpl. repeat constructor.
  - vm_compute; reflexivity.
  - intros k Hk. simpl in Hk.
    apply elem_of_cons in Hk as [->|Hk]; [right; by eexists|].
    apply elem_of_cons in Hk as [->|Hk]; [now left|].
    now apply elem_of_nil in Hk.
Defined.

Lemma providers_touch_only_their_builder_witness :
  (∀ q o, q ≠ sampleBuilder -> wired [] !! q = Some o ->
          snd (serve_all (Some sampleBuilder)
                         [KVRequest {| ModuleKey_Name := "bank" |};
                          TransientRequest {| ModuleKey_Name := "bank" |}]
                         (wired [])) !! q = Some o) ∧
  ∃ bd', snd (serve_all (Some sampleBuilder)
                        [KVRequest {| ModuleKey_Name := "bank" |};
                         TransientRequest {| ModuleKey_Name := "bank" |}]
                        (wired [])) !! sampleBuilder = Some (BuilderObj bd') ∧
         take 0 (storeKeys bd') = [].
Proof.
  apply (providers_touch_only_their_builder (wired []) sampleBuilder
           {| storeKeys := []; interfaceRegistry := 0; cdc := 1; amino := 2 |}
           [KVRequest {| ModuleKey_Name := "bank" |};
            TransientRequest {| ModuleKey_Name := "bank" |}]
           [6; 7]).
  - vm_compute; reflexivity.
  - vm_compute; reflexivity.
Defined.

Lemma plain_constructor_keeps_to_itself panics pruning newDB newStore load :
  constructor_keeps_to_itself (environment panics pruning newDB newStore load).
Proof.
  intros appName logger db opts h0 r h1 Hrun.
  destruct (plain_builds_engine panics pruning newDB newStore load appName logger db
              opts h0) as (Hnew & Hfresh & _ & Hframe).
  rewrite Hrun in Hnew. injection Hnew as -> ->.
  split; [exact Hframe|]. now intros bApp [= <-].
Qed.

Lemma plain_engine_available panics pruning newDB newStore load cfg logger db traceStore
    appOpts baseAppOptions pr s :
  engine_available (environment panics pruning newDB newStore load) cfg logger db
    traceStore appOpts baseAppOptions pr s.
Proof.
  intros cache h0. eexists _, _, _, _, _.
  split; [apply plain_builds_engine|]. split; [reflexivity|]. split; [reflexivity|].
  intros registry. eexists. reflexivity.
Qed.

Example Create_invalid_gas_prices :
  fst (Create strictCollaborators (Some sampleCreator) (MkLogger 0) (MkDB 0) None
              {| Get := fun f => match f with
                                 | FlagMinGasPrices => VString "notacoin"
                                 | _ => VNil
                                 end |}
              [] (registered ["auth"; "bank"]))
  = Panic (PanicMessage "invalid minimum gas prices").
Proof. vm_compute. reflexivity. Qed.

Lemma Create_panic_writes_nothing_witness :
  fst (Create strictCollaborators (Some sampleCreator) (MkLogger 0) (MkDB 0) None
              {| Get := fun f => match f with
                                 | FlagInterBlockCache => VBool true
                                 | FlagMinGasPrices => VString "notacoin"
                                 | _ => VNil
                                 end |}
              [] (registered ["auth"; "bank"]))
  = Panic (PanicMessage "invalid minimum gas prices") ∧
  ∀ q o, registered ["auth"; "bank"] !! q = Some o ->
         snd (Create strictCollaborators (Some sampleCreator) (MkLogger 0) (MkDB 0) None
                     {| Get := fun f => match f with
                                        | FlagInterBlockCache => VBool true
                                        | FlagMinGasPrices => VString "notacoin"
                                        | _ => VNil
                                        end |}
                     [] (registered ["auth"; "bank"])) !! q = Some o.
Proof.
  split; [vm_compute; reflexivity|].
  apply (Create_panic_writes_nothing strictCollaborators (Some sampleCreator)
           (MkLogger 0) (MkDB 0) None
           {| Get := fun f => match f with
                              | FlagInterBlockCache => VBool true
                              | FlagMinGasPrices => VString "notacoin"
                              | _ => VNil
                              end |}
           [] (PanicMessage "invalid minimum gas prices") (registered ["auth"; "bank"])).
  - apply plain_constructor_keeps_to_itself.
  - vm_compute; reflexivity.
Defined.

Lemma Create_needs_config_and_builder_witness :
  ∃ h', Create sampleCollaborators (Some 0) (MkLogger 0) (MkDB 0) None noOptions []
               bareCreator = (Panic NilDereference, h') ∧
        h' !! 0 = Some (CreatorObj {| builder := None; modules := None; app := None;
                                      config := Some (sampleConfig []) |}).
Proof.
  destruct (Create_needs_config_and_builder sampleCollaborators 0
              {| builder := None; modules := None; app := None;
                 config := Some (sampleConfig []) |}
              (MkPruningOptions 0) (MkDB 1) (MkSnapshotStore 0)
              (MkLogger 0) (MkDB 0) None noOptions [] bareCreator
              ltac:(vm_compute; reflexivity) eq_refl eq_refl eq_refl
              ltac:(intros cache o _; reflexivity)) as [_ Hbuilder].
  eapply (Hbuilder (sampleConfig []) None bareCreator).
  - reflexivity.
  - reflexivity.
  - reflexivity.
  - apply plain_builds_engine.
  - reflexivity.
  - reflexivity.
Defined.

Lemma Create_engine_configuration_witness :
  ∃ ap bApp st3 pc h',
    Create sampleCollaborators (Some sampleCreator) (MkLogger 0) (MkDB 0)
           (Some (MkWriter 1))
           {| Get := fun f => match f with
                              | FlagInterBlockCache => VBool true
                              | FlagMinGasPrices => VString "0stake"
                              | _ => VNil
                              end |}
           [CallerOption 1; CallerOption 2] (registered ["auth"; "bank"])
      = (Ret (Some ap), h') ∧
    h' !! ap = Some (AppObj {| BaseApp := Some bApp |}) ∧
    h' !! bApp = Some (BaseAppObj st3) ∧
    options st3 =
      [ CallerOption 1; CallerOption 2;
        SetPruning (MkPruningOptions 0); SetMinGasPrices "0stake";
        SetHaltHeight 0; SetHaltTime 0; SetMinRetainBlocks 0;
        SetInterBlockCache (Some pc); SetTrace false; SetIndexEvents [];
        SetSnapshot (MkSnapshotStore 0) (NewSnapshotOptions 0 0) ] ∧
    cmsTracer st3 = Some (MkWriter 1) ∧
    appInterfaceRegistry st3 = Some 0 ∧
    registered ["auth"; "bank"] !! pc = None ∧
    h' !! pc = Some CacheManagerObj.
Proof.
  edestruct (Create_engine_configuration sampleCollaborators sampleCreator
               (sampleCreatorObj ["auth"; "bank"] None) (sampleConfig ["auth"; "bank"])
               sampleBuilder
               {| storeKeys := []; interfaceRegistry := 0; cdc := 1; amino := 2 |}
               (MkPruningOptions 0) (MkDB 1) (MkSnapshotStore 0)
               (MkLogger 0) (MkDB 0) (Some (MkWriter 1))
               {| Get := fun f => match f with
                                  | FlagInterBlockCache => VBool true
                                  | FlagMinGasPrices => VString "0stake"
                                  | _ => VNil
                                  end |}
               [CallerOption 1; CallerOption 2] (registered ["auth"; "bank"])
               (Some 6) (<[6 := CacheManagerObj]> (registered ["auth"; "bank"])))
    as (ap & h' & Hrun & Hap & Heng & pc & Hcache & Hpc & Hpc').
  - vm_compute; reflexivity.
  - reflexivity.
  - reflexivity.
  - vm_compute; reflexivity.
  - reflexivity.
  - reflexivity.
  - reflexivity.
  - intros o _. reflexivity.
  - vm_compute; reflexivity.
  - apply plain_builds_engine.
  - reflexivity.
  - reflexivity.
  - reflexivity.
  - injection Hcache as <-.
    eexists ap, _, _, 6, h'. split; [exact Hrun|]. split; [exact Hap|].
    split; [exact Heng|]. split; [reflexivity|]. split; [reflexivity|].
    split; [reflexivity|]. split; [exact Hpc|exact Hpc'].
Defined.

Lemma Create_returns_stored_handle_witness :
  ∃ a0 c ap bApp st,
    Some sampleCreator = Some a0 ∧ Some 7 = Some ap ∧
    created sampleCollaborators ["auth"; "bank"] !! a0 = Some (CreatorObj c) ∧
    app c = Some ap ∧
    created sampleCollaborators ["auth"; "bank"] !! ap
      = Some (AppObj {| BaseApp := Some bApp |}) ∧
    created sampleCollaborators ["auth"; "bank"] !! bApp = Some (BaseAppObj st).
Proof.
  destruct (Create_returns_stored_handle sampleCollaborators (Some sampleCreator)
              (MkLogger 0) (MkDB 0) None noOptions [] (Some 7)
              (registered ["auth"; "bank"]) (created sampleCollaborators ["auth"; "bank"])
              ltac:(vm_compute; reflexivity))
    as (a0 & c & ap & bApp & st & H1 & H2 & H3 & H4 & H5 & H6 & _).
  exists a0, c, ap, bApp, st. done.
Defined.

Lemma assembly_end_to_end_witness :
  ∃ ap f h',
    (let* out := provideBuilder in
     let* a := provideApp (Some (sampleConfig ["auth"; "staking"]))
                          (Builder (fst out)) (Some 0) in
     let* e := RegisterModules a [bank; auth] in
     let* ap := Create sampleCollaborators a (MkLogger 0) (MkDB 0) None noOptions [] in
     let* f := Finish sampleCollaborators a false in
     ret (e, ap, f)) emptyRegistry = (Ret (None, Some ap, f), h') ∧
    (f = None <->
     ∀ k, k ∈ BeginBlockers (sampleConfig ["auth"; "staking"]) ->
          k ∈ Name <$> [bank; auth]) ∧
    (∀ err, f = Some err ->
       ∃ k, err = UnknownModuleError k ∧
            k ∈ BeginBlockers (sampleConfig ["auth"; "staking"]) ∧
            k ∉ Name <$> [bank; auth]).
Proof.
  apply (assembly_end_to_end sampleCollaborators (sampleConfig ["auth"; "staking"])
           [bank; auth] 0 (MkLogger 0) (MkDB 0) None noOptions []
           (MkPruningOptions 0) (MkDB 1) (MkSnapshotStore 0) emptyRegistry).
  - reflexivity.
  - apply (bool_decide_unpack _). vm_compute. exact I.
  - reflexivity.
  - reflexivity.
  - reflexivity.
  - intros cache o _. reflexivity.
  - apply plain_engine_available.
Defined.
